(** * agent.js: indicator kernel, capability registry and execution engine

    A shallow embedding of [src/agent.js] and the properties its
    specification states about it.

    Numbers are JavaScript Numbers, that is IEEE 754 binary64 values: they
    are modelled by Rocq's primitive [float], whose operations are the
    binary64 operations bit for bit (round to nearest, ties to even), so
    [NaN], the infinities, signed zeros, overflow and rounding behave here
    as they do in the program.  [undefined] is modelled by [None] where the
    program can produce it (an array read out of range). *)

From stdpp Require Import base strings gmap list.
From Stdlib Require Import ZArith Lia Floats Uint63 Bool Ascii String List.
Import ListNotations.

Local Open Scope Z_scope.

(* ================================================================== *)
(** * Part I: definitions                                              *)
(* ================================================================== *)

(** ** JavaScript values used by the kernel *)

(** [prices[i]]: the element when [i] is an index of the array,
    [undefined] otherwise (also for a negative [i]). *)
Definition at_index (prices : list float) (i : Z) : option float :=
  if i <? 0 then None else prices !! Z.to_nat i.

(** [ToNumber]: [undefined] converts to [NaN]. *)
Definition to_number (v : option float) : float :=
  match v with
  | Some f => f
  | None => nan
  end.

(** A count used as a Number ([period] in [gains / period]); counts are
    below [2^63], and exact as Numbers below [2^53]. *)
Definition number_of_nat (n : nat) : float :=
  of_uint63 (Uint63.of_Z (Z.of_nat n)).

(** [s || fallback] on strings: the empty string is falsy. *)
Definition string_or (s fallback : string) : string :=
  match s with
  | EmptyString => fallback
  | _ => s
  end.

(** [for (let i = start; ...; i++) body], run [count] times. *)
Fixpoint for_loop {St : Type} (i : Z) (count : nat)
    (body : Z -> St -> St) (s : St) : St :=
  match count with
  | O => s
  | S count' => for_loop (i + 1) count' body (body i s)
  end.

(** The indices such a loop visits. *)
Fixpoint loop_indices (i : Z) (count : nat) : list Z :=
  match count with
  | O => []
  | S count' => i :: loop_indices (i + 1) count'
  end.

(** ** Indicator kernel *)

Module Kernel.

(** [calculateEMA], lines 146-153. *)
Definition ema_step (prices : list float) (multiplier : float)
    (i : Z) (ema : option float) : option float :=
  Some ((to_number (at_index prices i) - to_number ema) * multiplier
        + to_number ema)%float.

Definition calculateEMA (prices : list float) (period : float) : option float :=
  let multiplier := (2 / (period + 1))%float in
  let ema := at_index prices 0 in
  for_loop 1 (length prices - 1) (ema_step prices multiplier) ema.

(** [calculateMACD], lines 137-144. *)
Record macd := {
  macdLine : float;
  signalLine : option float;
  histogram : float
}.

Definition calculateMACD (prices : list float) : macd :=
  let ema12 := calculateEMA prices 12 in
  let ema26 := calculateEMA prices 26 in
  let macdLine := (to_number ema12 - to_number ema26)%float in
  let signalLine := calculateEMA [macdLine] 9 in
  let histogram := (macdLine - to_number signalLine)%float in
  {| macdLine := macdLine; signalLine := signalLine; histogram := histogram |}.

(** [calculateRSI], lines 123-135.  [period] is a count of transitions;
    the loop runs from [prices.length - period] up to
    [prices.length - 1], and its state is the pair [(gains, losses)]. *)
Definition rsi_step (prices : list float) (i : Z)
    (acc : float * float) : float * float :=
  let '(gains, losses) := acc in
  let difference :=
    (to_number (at_index prices i) - to_number (at_index prices (i - 1)))%float in
  if (0 <=? difference)%float
  then ((gains + difference)%float, losses)
  else (gains, (losses - difference)%float).

Definition calculateRSI (prices : list float) (period : nat) : float :=
  let '(gains, losses) :=
    for_loop (Z.of_nat (length prices) - Z.of_nat period) period
      (rsi_step prices) (0%float, 0%float) in
  let avgGain := (gains / number_of_nat period)%float in
  let avgLoss := (losses / number_of_nat period)%float in
  let rs := (avgGain / avgLoss)%float in
  (100 - 100 / (1 + rs))%float.

(** [determineTrend], lines 155-163: [signals] is an array that is pushed
    to, then joined; an empty join is falsy and gives ["Neutral"]. *)
Definition push (signals : list string) (label : string) : list string :=
  signals ++ [label].

Definition determineTrend {A : Type} (sma : A) (rsi : float) (m : macd) : string :=
  let signals := [] in
  let signals :=
    if (70 <? rsi)%float then push signals "Overbought"
    else if (rsi <? 30)%float then push signals "Oversold"
    else signals in
  let signals :=
    if (to_number (signalLine m) <? macdLine m)%float
    then push signals "Bullish MACD Crossover"
    else if (macdLine m <? to_number (signalLine m))%float
    then push signals "Bearish MACD Crossover"
    else signals in
  string_or (String.concat ", " signals) "Neutral".

(** The labelling rules as the specification words them: one optional
    label from the RSI, one from the MACD record, joined by a comma, and
    ["Neutral"] when neither rule fires. *)
Definition rsi_label (rsi : float) : option string :=
  if (70 <? rsi)%float then Some "Overbought"
  else if (rsi <? 30)%float then Some "Oversold"
  else None.

Definition macd_label (m : macd) : option string :=
  if (to_number (signalLine m) <? macdLine m)%float then Some "Bullish MACD Crossover"
  else if (macdLine m <? to_number (signalLine m))%float then Some "Bearish MACD Crossover"
  else None.

Definition TrendSignal_spec (rsi : float) (m : macd) : string :=
  match rsi_label rsi, macd_label m with
  | Some a, Some b => a +:+ ", " +:+ b
  | Some a, None => a
  | None, Some b => b
  | None, None => "Neutral"
  end.

(** The windows of prices the RSI properties speak about: every step of
    the last [period] transitions goes strictly up, respectively joins
    two equal samples ([==] on Numbers). *)
Definition rising_window (prices : list float) (period : nat) : bool :=
  forallb
    (fun i => (to_number (at_index prices (i - 1)) <? to_number (at_index prices i))%float)
    (loop_indices (Z.of_nat (length prices) - Z.of_nat period) period).

Definition flat_window (prices : list float) (period : nat) : bool :=
  forallb
    (fun i => (to_number (at_index prices (i - 1)) =? to_number (at_index prices i))%float)
    (loop_indices (Z.of_nat (length prices) - Z.of_nat period) period).

End Kernel.
(** ** Named time windows *)

(** [TIME_PERIODS], lines 213-218: an object literal used as a map from
    window names to milliseconds.  The map holds the literal's own
    properties; a read [TIME_PERIODS[name]] is [get], below. *)
Definition TIME_PERIODS : gmap string float :=
  {[ "1d" := (24 * 60 * 60 * 1000)%float;
     "7d" := (7 * 24 * 60 * 60 * 1000)%float;
     "30d" := (30 * 24 * 60 * 60 * 1000)%float;
     "1y" := (365 * 24 * 60 * 60 * 1000)%float ]}.

(** The copy that [executeCode] puts in [context], lines 872-877. *)
Definition context_TIME_PERIODS : gmap string float :=
  {[ "1d" := (24 * 60 * 60 * 1000)%float;
     "7d" := (7 * 24 * 60 * 60 * 1000)%float;
     "30d" := (30 * 24 * 60 * 60 * 1000)%float;
     "1y" := (365 * 24 * 60 * 60 * 1000)%float ]}.

(** The properties of [Object.prototype], which is the prototype of
    every object literal: functions, and the accessor [__proto__], which
    answers with [Object.prototype] itself. *)
Definition Object_prototype : list string :=
  [ "constructor"; "__defineGetter__"; "__defineSetter__"; "hasOwnProperty";
    "__lookupGetter__"; "__lookupSetter__"; "isPrototypeOf";
    "propertyIsEnumerable"; "toString"; "valueOf"; "__proto__";
    "toLocaleString" ].

(** What a read [table[name]] gives: the Number of an own property,
    the function or object that [Object.prototype] holds under that
    name, or [undefined]. *)
Inductive property :=
| Duration (ms : float)
| Inherited (name : string)
| Undefined.

(** [table[name]]: the own property, or else the one found along the
    prototype chain. *)
Definition get (table : gmap string float) (name : string) : property :=
  match table !! name with
  | Some ms => Duration ms
  | None =>
      if existsb (String.eqb name) Object_prototype then Inherited name
      else Undefined
  end.

(** The operand of [-] as a Number: [undefined] is [NaN], and so is a
    function or [Object.prototype], which convert through their text. *)
Definition property_to_number (p : property) : float :=
  match p with
  | Duration ms => ms
  | Inherited _ => nan
  | Undefined => nan
  end.

(** The table as the specification words it, in milliseconds. *)
Definition named_window_ms (name : string) : option float :=
  if String.eqb name "1d" then Some 86400000%float
  else if String.eqb name "7d" then Some 604800000%float
  else if String.eqb name "30d" then Some 2592000000%float
  else if String.eqb name "1y" then Some 31536000000%float
  else None.

(** [const from = now - TIME_PERIODS[period]], lines 481-482, 488-489,
    503-504 and 784-785. *)
Definition window_start (table : gmap string float) (now : float)
    (period : string) : float :=
  (now - property_to_number (get table period))%float.

(** ** Market data and its formatters *)

(** The fields of a market snapshot that the formatters read.  A field
    that the response carries is a Number; [None] is a field that it
    does not carry ([undefined]). *)
Module MarketData.

Record market_data := {
  price : option float;
  volume : option float;
  market_cap : option float;
  market_cap_diluted : option float;
  liquidity : option float;
  liquidity_change_24h : option float;
  off_chain_volume : option float;
  volume_7d : option float;
  volume_change_24h : option float;
  price_change_1h : option float;
  price_change_24h : option float;
  price_change_7d : option float;
  price_change_1m : option float;
  price_change_1y : option float;
  ath : option float;
  atl : option float
}.

(** A response in which none of these fields is present. *)
Definition no_fields : market_data :=
  {| price := None; volume := None; market_cap := None;
     market_cap_diluted := None; liquidity := None;
     liquidity_change_24h := None; off_chain_volume := None;
     volume_7d := None; volume_change_24h := None;
     price_change_1h := None; price_change_24h := None;
     price_change_7d := None; price_change_1m := None;
     price_change_1y := None; ath := None; atl := None |}.

End MarketData.
Abbreviation market_data := MarketData.market_data.

Record coin := { coin_name : string; coin_symbol : string }.

(** [String.prototype.toLowerCase] on code units below 256: the
    capital letters A-Z and those of Latin-1 move up by 32. *)
Definition lower_ascii (c : ascii) : ascii :=
  let n := nat_of_ascii c in
  if ((65 <=? n) && (n <=? 90)
      || (192 <=? n) && (n <=? 214) || (216 <=? n) && (n <=? 222))%nat
  then ascii_of_nat (n + 32) else c.

Fixpoint toLowerCase (s : string) : string :=
  match s with
  | EmptyString => EmptyString
  | String c s' => String (lower_ascii c) (toLowerCase s')
  end.

(** [getTokenName], lines 107-115 (and 653-661 over [context.coins]). *)
Definition getTokenName (coins : list coin) (input : string) : string :=
  let lowercaseInput := toLowerCase input in
  let matchedCoin :=
    List.find
      (fun c => String.eqb (toLowerCase (coin_name c)) lowercaseInput
                || String.eqb (toLowerCase (coin_symbol c)) lowercaseInput)
      coins in
  match matchedCoin with
  | Some c => toLowerCase (coin_name c)
  | None => lowercaseInput
  end.

(** Truthiness of a Number: every value but [0], [-0] and [NaN]. *)
Definition truthy (x : float) : bool :=
  negb (x =? 0)%float && negb (is_nan x).

(** The provider lookup [fetchMarketData], the table [coins.json] and
    [Number.prototype.toFixed(2)] are outside the file: the formatters
    take them as parameters. *)

(** [data?.<field>] after
    [const data = await fetchMarketData(getTokenName(token))]. *)
Definition field (fetchMarketData : string -> option market_data)
    (coins : list coin) (get : market_data -> option float)
    (token : string) : option float :=
  match fetchMarketData (getTokenName coins token) with
  | Some data => get data
  | None => None
  end.

(** [v?.toFixed(2) || "N/A"] *)
Definition toFixed_or_NA (toFixed2 : float -> string) (v : option float) : string :=
  match v with
  | Some x => string_or (toFixed2 x) "N/A"
  | None => "N/A"
  end.

(** The module-level formatters, lines 250-355. *)
Module Formatter.
Section WithProvider.
Variable fetchMarketData : string -> option market_data.
Variable coins : list coin.
Variable toFixed2 : float -> string.
Let field := field fetchMarketData coins.
Let toFixed_or_NA := toFixed_or_NA toFixed2.

(** [data?.price !== undefined ? `$${data.price.toFixed(2)}` : "N/A"] *)
Definition defined_currency (v : option float) : string :=
  match v with
  | Some x => "$" +:+ toFixed2 x
  | None => "N/A"
  end.

Definition price (token : string) : string := defined_currency (field MarketData.price token).
Definition volume (token : string) : string := defined_currency (field MarketData.volume token).
Definition marketCap (token : string) : string := defined_currency (field MarketData.market_cap token).

(** [`$${data?.market_cap_diluted?.toFixed(2) || "N/A"}`], lines 272-276. *)
Definition marketCapDiluted (token : string) : string :=
  "$" +:+ toFixed_or_NA (field MarketData.market_cap_diluted token).

(** Lines 279-283. *)
Definition liquidity (token : string) : string :=
  "$" +:+ toFixed_or_NA (field MarketData.liquidity token).

(** Lines 285-291: a truthiness test, then the percentage. *)
Definition liquidityChange24h (token : string) : string :=
  match field MarketData.liquidity_change_24h token with
  | Some x => if truthy x then toFixed2 x +:+ "%" else "N/A"
  | None => "N/A"
  end.

Definition offChainVolume (token : string) : string :=
  "$" +:+ toFixed_or_NA (field MarketData.off_chain_volume token).

Definition volume7d (token : string) : string :=
  "$" +:+ toFixed_or_NA (field MarketData.volume_7d token).

(** [`${data?.volume_change_24h?.toFixed(2) || "N/A"}%`], lines 306-310. *)
Definition volumeChange24h (token : string) : string :=
  toFixed_or_NA (field MarketData.volume_change_24h token) +:+ "%".

Definition priceChange24h (token : string) : string :=
  toFixed_or_NA (field MarketData.price_change_24h token) +:+ "%".

Definition priceChange1h (token : string) : string :=
  toFixed_or_NA (field MarketData.price_change_1h token) +:+ "%".

Definition priceChange7d (token : string) : string :=
  toFixed_or_NA (field MarketData.price_change_7d token) +:+ "%".

Definition priceChange1m (token : string) : string :=
  toFixed_or_NA (field MarketData.price_change_1m token) +:+ "%".

Definition priceChange30d (token : string) : string :=
  toFixed_or_NA (field MarketData.price_change_1m token) +:+ "%".

Definition priceChange1y (token : string) : string :=
  toFixed_or_NA (field MarketData.price_change_1y token) +:+ "%".

Definition ath (token : string) : string :=
  "$" +:+ toFixed_or_NA (field MarketData.ath token).

Definition atl (token : string) : string :=
  "$" +:+ toFixed_or_NA (field MarketData.atl token).

End WithProvider.
End Formatter.

(** The formatters of the [context] object built by [executeCode], lines
    664-845: [data?.f ? `$${data.f.toFixed(2)}` : "N/A"] and its
    percentage form. *)
Module ContextFormatter.

(** [context.coins], lines 643-653. *)
Definition coins : list coin :=
  [ {| coin_name := "bitcoin"; coin_symbol := "btc" |};
    {| coin_name := "ethereum"; coin_symbol := "eth" |};
    {| coin_name := "aptos"; coin_symbol := "apt" |};
    {| coin_name := "binance coin"; coin_symbol := "bnb" |};
    {| coin_name := "cardano"; coin_symbol := "ada" |};
    {| coin_name := "solana"; coin_symbol := "sol" |};
    {| coin_name := "ripple"; coin_symbol := "xrp" |};
    {| coin_name := "polkadot"; coin_symbol := "dot" |} ].

Section WithProvider.
Variable fetchMarketData : string -> option market_data.
Variable toFixed2 : float -> string.
Let field := field fetchMarketData coins.

Definition truthy_currency (v : option float) : string :=
  match v with
  | Some x => if truthy x then "$" +:+ toFixed2 x else "N/A"
  | None => "N/A"
  end.

Definition truthy_percent (v : option float) : string :=
  match v with
  | Some x => if truthy x then toFixed2 x +:+ "%" else "N/A"
  | None => "N/A"
  end.

Definition price (token : string) : string := truthy_currency (field MarketData.price token).
Definition volume (token : string) : string := truthy_currency (field MarketData.volume token).
Definition marketCap (token : string) : string := truthy_currency (field MarketData.market_cap token).
Definition marketCapDiluted (token : string) : string :=
  truthy_currency (field MarketData.market_cap_diluted token).
Definition liquidity (token : string) : string := truthy_currency (field MarketData.liquidity token).
Definition offChainVolume (token : string) : string :=
  truthy_currency (field MarketData.off_chain_volume token).
Definition volume7d (token : string) : string := truthy_currency (field MarketData.volume_7d token).
Definition ath (token : string) : string := truthy_currency (field MarketData.ath token).
Definition atl (token : string) : string := truthy_currency (field MarketData.atl token).
Definition priceChange24h (token : string) : string :=
  truthy_percent (field MarketData.price_change_24h token).
Definition priceChange1h (token : string) : string :=
  truthy_percent (field MarketData.price_change_1h token).
Definition priceChange7d (token : string) : string :=
  truthy_percent (field MarketData.price_change_7d token).
Definition priceChange30d (token : string) : string :=
  truthy_percent (field MarketData.price_change_1m token).
Definition priceChange1m (token : string) : string :=
  truthy_percent (field MarketData.price_change_1m token).
Definition priceChange1y (token : string) : string :=
  truthy_percent (field MarketData.price_change_1y token).
Definition liquidityChange24h (token : string) : string :=
  truthy_percent (field MarketData.liquidity_change_24h token).
Definition volumeChange24h (token : string) : string :=
  truthy_percent (field MarketData.volume_change_24h token).

End WithProvider.
End ContextFormatter.

(** ** Execution engine *)

(** *** Normalizing, lines 634-638

    Code text is a string of code units below 256 (Latin-1). *)

Definition newline : string := String (ascii_of_nat 10) EmptyString.

(** The rest of [s] after the prefix [marker], when [s] starts with it. *)
Fixpoint after_prefix (marker s : string) : option string :=
  match marker with
  | EmptyString => Some s
  | String m marker' =>
      match s with
      | String c s' => if Ascii.eqb m c then after_prefix marker' s' else None
      | EmptyString => None
      end
  end.

(** The optional [\n] of the patterns. *)
Definition skip_newline (s : string) : string :=
  match s with
  | String c s' => if Ascii.eqb c (ascii_of_nat 10) then s' else s
  | EmptyString => s
  end.

(** [s.replace(/<marker>\n?/, "")]: the pattern has no [g] flag and no
    anchor, so the leftmost occurrence of the marker, wherever it is, is
    removed together with a line feed that follows it directly. *)
Fixpoint replace_first (marker s : string) : string :=
  match after_prefix marker s with
  | Some rest => skip_newline rest
  | None =>
      match s with
      | EmptyString => EmptyString
      | String c s' => String c (replace_first marker s')
      end
  end.

(** White space and line terminators of ECMAScript below 256. *)
Definition is_whitespace (c : ascii) : bool :=
  let n := nat_of_ascii c in
  ((9 <=? n) && (n <=? 13) || (n =? 32) || (n =? 160))%nat.

Fixpoint trim_start (s : string) : string :=
  match s with
  | String c s' => if is_whitespace c then trim_start s' else s
  | EmptyString => EmptyString
  end.

Fixpoint trim_end (s : string) : string :=
  match s with
  | EmptyString => EmptyString
  | String c s' =>
      match trim_end s' with
      | EmptyString => if is_whitespace c then EmptyString else String c EmptyString
      | t => String c t
      end
  end.

Definition trim (s : string) : string := trim_end (trim_start s).

(** [code.replace(/```javascript\n?/, "").replace(/```\n?/, "").trim()] *)
Definition cleanCode (code : string) : string :=
  trim (replace_first "```" (replace_first "```javascript" code)).

(** [marker] occurs in [s]; its leftmost occurrence in [s] lies between
    [pre] and [post]. *)
Definition occurs (marker s : string) : Prop :=
  exists pre post, s = pre +:+ marker +:+ post.

Definition first_occurrence (marker s pre post : string) : Prop :=
  s = pre +:+ marker +:+ post
  /\ forall p q, s = p +:+ marker +:+ q ->
                 (String.length pre <= String.length p)%nat.

(** *** Values, errors and the host engine *)

(** An [Error] object: the name of its class and its message. *)
Record error := { error_name : string; message : string }.

(** What executed code can return or throw in this model: [undefined],
    [null], a Number, a string whose text is not tracked, an object
    known by the binding that holds it (a capability, a host object),
    or an [Error] object. *)
Inductive value :=
| VUndefined
| VNull
| VNumber (f : float)
| VText
| VObject (name : string)
| VError (e : error).

(** How a call ends: the promise is fulfilled with a value, or rejected
    with the value that was thrown. *)
Inductive completion :=
| Returns (v : value)
| Throws (thrown : value).

(** The host's dynamic compilation, as [executeCode] uses it:
    [new AsyncFunction(...names, body)] either throws an error or gives
    a callable, and calling it with the capability values completes. *)
Record Engine := {
  callable : Type;
  compile : list string -> string -> error + callable;
  call : callable -> list value -> completion
}.

(** What [executeCode] does, in order. *)
Inductive event :=
| Compiling
| Running
| Logged (label : string) (thrown : value).

(** *** Capability registry: the keys of [context], lines 641-933, in
    the order of the object literal *)

Definition context_keys : list string :=
  [ "coins"; "getTokenName";
    "price"; "volume"; "marketCap"; "marketCapDiluted"; "liquidity";
    "priceChange24h"; "priceChange1h"; "priceChange7d";
    "getPriceHistory"; "getHistoricPortfolioData"; "getWalletPortfolio";
    "website"; "twitter"; "telegram"; "discord"; "description";
    "usePerplexity"; "cexs"; "investors"; "distribution"; "releaseSchedule";
    "console";
    "priceChange30d"; "priceHistoryData"; "liquidityChange24h";
    "offChainVolume"; "volume7d"; "volumeChange24h";
    "priceChange1m"; "priceChange1y";
    "ath"; "atl"; "rank"; "totalSupply"; "circulatingSupply"; "isListed";
    "TIME_PERIODS"; "portfolioAddresses";
    "getSocialData"; "getListByCategory"; "getTopicNews" ].

(** [Object.values(context)]: each capability is the object its key
    names. *)
Definition context_values : list value := map VObject context_keys.

(** The bindings of the module scope of agent.js (its [const]
    declarations), none of which is passed to the compiled function
    unless the registry names it.  agent.js is a CommonJS module (it
    loads its dependencies with [require]), so these bindings live in
    the scope of the module, not in the global environment. *)
Definition module_scope : list string :=
  [ "axios"; "OpenAI"; "coins"; "openai"; "portfolioAddresses";
    "LUNARCRUSH_API_KEY";
    "fetchPriceHistory"; "fetchCryptoPanicData"; "fetchMarketData";
    "fetchMetadata"; "fetchHistoricPortfolioData"; "fetchWalletPortfolio";
    "getTokenName"; "calculateSMA"; "calculateRSI"; "calculateMACD";
    "calculateEMA"; "determineTrend"; "calculateVolatility"; "calculateTrend";
    "usePerplexity"; "API_KEYS"; "TIME_PERIODS";
    "website"; "twitter"; "telegram"; "discord"; "description";
    "price"; "volume"; "marketCap"; "marketCapDiluted";
    "liquidity"; "liquidityChange24h"; "offChainVolume"; "volume7d";
    "volumeChange24h"; "priceChange24h"; "priceChange1h"; "priceChange7d";
    "priceChange1m"; "priceChange30d"; "priceChange1y";
    "ath"; "atl"; "rank"; "totalSupply"; "circulatingSupply";
    "cexs"; "investors"; "distribution"; "releaseSchedule";
    "priceHistoryData"; "getHistoricPortfolioData"; "isListed";
    "getPriceHistory"; "getSocialData"; "getListByCategory"; "executeCode" ].

(** *** [executeCode], lines 633-957 *)

(** The body handed to the [AsyncFunction] constructor, lines 938-947. *)
Definition function_body (cleanCode : string) : string :=
  newline +:+ "      try {" +:+ newline +:+ "        " +:+ cleanCode +:+ newline
  +:+ "      } catch (error) {" +:+ newline
  +:+ "        console.error('Error in executed code:', error);" +:+ newline
  +:+ "        throw error;" +:+ newline
  +:+ "      }" +:+ newline +:+ "    ".

(** [error.message] in the handler, line 956, as the text the template
    gets: reading a property of [undefined] or [null] raises a
    [TypeError]; an [Error] object has its message; a Number, a string,
    a capability or a host object has no such property, and the
    template prints [undefined]. *)
Definition message_text (thrown : value) : error + string :=
  match thrown with
  | VUndefined =>
      inl {| error_name := "TypeError";
             message := "Cannot read properties of undefined (reading 'message')" |}
  | VNull =>
      inl {| error_name := "TypeError";
             message := "Cannot read properties of null (reading 'message')" |}
  | VError e => inr (message e)
  | VNumber _ => inr "undefined"
  | VText => inr "undefined"
  | VObject _ => inr "undefined"
  end.

(** [new Error(`Code execution failed: ${...}`)] *)
Definition execution_failed (text : string) : error :=
  {| error_name := "Error";
     message := "Code execution failed: " +:+ text |}.

(** The handler of the outer [try], lines 954-957, after it has logged
    what it caught. *)
Definition caught (thrown : value) : completion :=
  match message_text thrown with
  | inr text => Throws (VError (execution_failed text))
  | inl raised => Throws (VError raised)
  end.

(** The outer [try]/[catch] of [executeCode]: whatever is thrown while
    compiling or running is logged and handled; a value returned by the
    callable is returned. *)
Definition executeCode (E : Engine) (code : string) : completion * list event :=
  let cleanCode := cleanCode code in
  match compile E context_keys (function_body cleanCode) with
  | inl e =>
      (caught (VError e), [Compiling; Logged "Error executing code:" (VError e)])
  | inr fn =>
      match call E fn context_values with
      | Returns result => (Returns result, [Compiling; Running])
      | Throws thrown =>
          (caught thrown,
           [Compiling; Running; Logged "Error executing code:" thrown])
      end
  end.

(** What is thrown while compiling or running [code], if anything. *)
Definition arising_error (E : Engine) (code : string) : option value :=
  match compile E context_keys (function_body (cleanCode code)) with
  | inl e => Some (VError e)
  | inr fn =>
      match call E fn context_values with
      | Returns _ => None
      | Throws thrown => Some thrown
      end
  end.

(** What the specification promises for a failure: the caller gets a
    value back, and nothing is thrown. *)
Definition returns_to_caller (c : completion) : Prop :=
  exists v, c = Returns v.

Definition count_event (same : event -> bool) (trace : list event) : nat :=
  length (List.filter same trace).

Definition is_compiling (ev : event) : bool :=
  match ev with Compiling => true | _ => false end.

Definition is_running (ev : event) : bool :=
  match ev with Running => true | _ => false end.

(** *** A small host engine

    [MiniJS] implements [Engine] for a fragment of JavaScript: the body
    that [executeCode] builds around a snippet that is a sequence of
    statements [e;], [return e;], [return;], [throw e;] and [;], each
    closed by its semicolon (the last one may leave it out), where [e]
    adds operands with [+] and an operand is a decimal literal, [null],
    an identifier, or [typeof] of an operand.  It answers every other
    text with a [SyntaxError], also JavaScript outside this fragment, so
    only what it returns and what it throws while running are read as
    those of a full engine.  On the fragment it follows ECMAScript: a
    function made by the [Function] constructors has the global
    environment as its scope, not the scope of the code that calls the
    constructor, so an identifier resolves to a parameter, to the
    function's own [arguments] object, or to a property of the global
    object, and to nothing else. *)

Module MiniJS.

Inductive token :=
| TIdent (s : string)
| TNumber (n : Z)
| TString (s : string)
| TPunct (c : ascii)
| TNewline.

Definition in_range (lo hi : nat) (c : ascii) : bool :=
  let n := nat_of_ascii c in ((lo <=? n) && (n <=? hi))%nat.

Definition is_digit (c : ascii) : bool := in_range 48 57 c.

Definition is_ident_start (c : ascii) : bool :=
  in_range 65 90 c || in_range 97 122 c
  || Ascii.eqb c "_" || Ascii.eqb c "$".

Definition is_ident_part (c : ascii) : bool :=
  is_ident_start c || is_digit c.

Definition is_punct (c : ascii) : bool :=
  existsb (Ascii.eqb c) ["("; ")"; "{"; "}"; ";"; ","; "."; "+"]%char.

Definition digit_value (c : ascii) : Z := Z.of_nat (nat_of_ascii c) - 48.

Definition append_char (s : string) (c : ascii) : string :=
  s +:+ String c EmptyString.

(** What the lexer is in the middle of. *)
Inductive lex_state :=
| Between
| InIdent (acc : string)
| InNumber (acc : Z)
| InString (acc : string).

(** A character met between two tokens. *)
Definition is_line_terminator (c : ascii) : bool :=
  Ascii.eqb c (ascii_of_nat 10) || Ascii.eqb c (ascii_of_nat 13).

Definition start_token (c : ascii) : option (lex_state * list token) :=
  if is_line_terminator c then Some (Between, [TNewline])
  else if is_whitespace c then Some (Between, [])
  else if is_ident_start c then Some (InIdent (String c EmptyString), [])
  else if is_digit c then Some (InNumber (digit_value c), [])
  else if Ascii.eqb c "'" then Some (InString EmptyString, [])
  else if is_punct c then Some (Between, [TPunct c])
  else None.

Definition prepend (ts : list token) (r : option (list token)) : option (list token) :=
  match r with
  | Some rest => Some (ts ++ rest)
  | None => None
  end.

Fixpoint lex (st : lex_state) (s : string) : option (list token) :=
  match s with
  | EmptyString =>
      match st with
      | Between => Some []
      | InIdent a => Some [TIdent a]
      | InNumber n => Some [TNumber n]
      | InString _ => None
      end
  | String c s' =>
      match st with
      | InString a =>
          if Ascii.eqb c "'" then prepend [TString a] (lex Between s')
          else if is_line_terminator c then None
          else lex (InString (append_char a c)) s'
      | InIdent a =>
          if is_ident_part c then lex (InIdent (append_char a c)) s'
          else
            match start_token c with
            | Some (st', ts) => prepend (TIdent a :: ts) (lex st' s')
            | None => None
            end
      | InNumber n =>
          if is_digit c then
            if n =? 0 then None else lex (InNumber (10 * n + digit_value c)) s'
          else if is_ident_start c then None
          else
            match start_token c with
            | Some (st', ts) => prepend (TNumber n :: ts) (lex st' s')
            | None => None
            end
      | Between =>
          match start_token c with
          | Some (st', ts) => prepend ts (lex st' s')
          | None => None
          end
      end
  end.

Definition tokenize (s : string) : option (list token) := lex Between s.

Definition token_eqb (a b : token) : bool :=
  match a, b with
  | TIdent x, TIdent y => String.eqb x y
  | TNumber x, TNumber y => Z.eqb x y
  | TString x, TString y => String.eqb x y
  | TPunct x, TPunct y => Ascii.eqb x y
  | TNewline, TNewline => true
  | _, _ => false
  end.

(** Expressions and statements of the snippet. *)
Inductive expr :=
| ELit (n : Z)
| ENull
| EVar (x : string)
| ETypeof (e : expr)
| EAdd (a b : expr).

Inductive stmt :=
| SEmpty
| SExpr (e : expr)
| SReturn (e : option expr)
| SThrow (e : expr).

(** The words that are never identifiers in the body of an async
    function. *)
Definition reserved : list string :=
  [ "await"; "break"; "case"; "catch"; "class"; "const"; "continue";
    "debugger"; "default"; "delete"; "do"; "else"; "enum"; "export";
    "extends"; "false"; "finally"; "for"; "function"; "if"; "import";
    "in"; "instanceof"; "new"; "null"; "return"; "super";
    "switch"; "this"; "throw"; "true"; "try"; "typeof"; "var"; "void";
    "while"; "with" ].

Definition parse_atom (t : token) : option expr :=
  match t with
  | TNumber n => if n <? 2 ^ 53 then Some (ELit n) else None
  | TIdent x =>
      if String.eqb x "null" then Some ENull
      else if existsb (String.eqb x) reserved then None
      else Some (EVar x)
  | _ => None
  end.

(** An operand: an atom under any number of [typeof]. *)
Fixpoint parse_operand (ts : list token) : option expr :=
  match ts with
  | [t] => parse_atom t
  | TIdent kw :: rest =>
      if String.eqb kw "typeof" then
        match parse_operand rest with
        | Some e => Some (ETypeof e)
        | None => None
        end
      else None
  | _ => None
  end.

(** The runs of tokens between the separators [sep]. *)
Fixpoint split_tokens (sep : ascii) (ts : list token) : list (list token) :=
  match ts with
  | [] => [[]]
  | t :: rest =>
      if token_eqb t (TPunct sep) then [] :: split_tokens sep rest
      else
        match split_tokens sep rest with
        | piece :: pieces => (t :: piece) :: pieces
        | [] => [[t]]
        end
  end.

Fixpoint parse_operands (pieces : list (list token)) : option (list expr) :=
  match pieces with
  | [] => Some []
  | piece :: rest =>
      match parse_operand piece, parse_operands rest with
      | Some e, Some es => Some (e :: es)
      | _, _ => None
      end
  end.

(** [a + b + c] is [(a + b) + c]. *)
Definition parse_expr (ts : list token) : option expr :=
  match parse_operands (split_tokens "+" ts) with
  | Some (e :: es) => Some (fold_left EAdd es e)
  | _ => None
  end.

Definition is_newline (t : token) : bool :=
  match t with TNewline => true | _ => false end.

Definition without_newlines (ts : list token) : list token :=
  List.filter (fun t => negb (is_newline t)) ts.

Fixpoint drop_newlines (ts : list token) : list token :=
  match ts with
  | TNewline :: rest => drop_newlines rest
  | _ => ts
  end.

(** One statement, from the tokens before its semicolon.  A line
    terminator directly after [return] or [throw] would end the
    statement there or be an error; such a snippet is outside the
    fragment.  Elsewhere line terminators separate tokens like other
    white space. *)
Definition parse_stmt (piece : list token) : option stmt :=
  match drop_newlines piece with
  | [] => Some SEmpty
  | TIdent kw :: rest =>
      if String.eqb kw "return" then
        match rest with
        | TNewline :: _ => None
        | _ =>
            match without_newlines rest with
            | [] => Some (SReturn None)
            | ets =>
                match parse_expr ets with
                | Some e => Some (SReturn (Some e))
                | None => None
                end
            end
        end
      else if String.eqb kw "throw" then
        match rest with
        | TNewline :: _ => None
        | _ =>
            match parse_expr (without_newlines rest) with
            | Some e => Some (SThrow e)
            | None => None
            end
        end
      else
        match parse_expr (without_newlines (TIdent kw :: rest)) with
        | Some e => Some (SExpr e)
        | None => None
        end
  | ts =>
      match parse_expr (without_newlines ts) with
      | Some e => Some (SExpr e)
      | None => None
      end
  end.

(** The statements of the runs between semicolons; what follows the
    last semicolon is a statement of its own unless it is empty. *)
Fixpoint parse_pieces (pieces : list (list token)) : option (list stmt) :=
  match pieces with
  | [] => Some []
  | [last] =>
      match drop_newlines last with
      | [] => Some []
      | _ =>
          match parse_stmt last with
          | Some s => Some [s]
          | None => None
          end
      end
  | piece :: rest =>
      match parse_stmt piece, parse_pieces rest with
      | Some s, Some ss => Some (s :: ss)
      | _, _ => None
      end
  end.

Definition parse_snippet (ts : list token) : option (list stmt) :=
  parse_pieces (split_tokens ";" ts).

(** The frame [function_body] puts around the snippet: [try {] before
    it, and after it a handler that logs what was thrown and throws it
    again, which changes no completion. *)
Definition frame_open : list token :=
  [TNewline; TIdent "try"; TPunct "{"%char; TNewline].

Definition frame_close : list token :=
  [ TNewline; TPunct "}"%char; TIdent "catch"; TPunct "("%char; TIdent "error";
    TPunct ")"%char; TPunct "{"%char; TNewline;
    TIdent "console"; TPunct "."%char; TIdent "error"; TPunct "("%char;
    TString "Error in executed code:"; TPunct ","%char; TIdent "error";
    TPunct ")"%char; TPunct ";"%char; TNewline;
    TIdent "throw"; TIdent "error"; TPunct ";"%char; TNewline;
    TPunct "}"%char; TNewline ].

Fixpoint strip_prefix (p ts : list token) : option (list token) :=
  match p with
  | [] => Some ts
  | a :: p' =>
      match ts with
      | b :: ts' => if token_eqb a b then strip_prefix p' ts' else None
      | [] => None
      end
  end.

Definition strip_suffix (p ts : list token) : option (list token) :=
  match strip_prefix (rev p) (rev ts) with
  | Some r => Some (rev r)
  | None => None
  end.

Definition parse_body (ts : list token) : option (list stmt) :=
  match strip_prefix frame_open ts with
  | Some rest =>
      match strip_suffix frame_close rest with
      | Some snippet => parse_snippet snippet
      | None => None
      end
  | None => None
  end.

Definition syntax_error : error :=
  {| error_name := "SyntaxError"; message := "Unexpected token" |}.

Definition reference_error (x : string) : error :=
  {| error_name := "ReferenceError"; message := x +:+ " is not defined" |}.

(** A compiled function: its parameter names and its statements. *)
Record closure := { params : list string; body : list stmt }.

Definition compile (names : list string) (text : string) : error + closure :=
  match tokenize text with
  | Some ts =>
      match parse_body ts with
      | Some ss => inr {| params := names; body := ss |}
      | None => inl syntax_error
      end
  | None => inl syntax_error
  end.

(** Binding of a name in an ordered list of bindings. *)
Fixpoint assoc (x : string) (bindings : list (string * value)) : option value :=
  match bindings with
  | [] => None
  | (k, v) :: rest => if String.eqb x k then Some v else assoc x rest
  end.

(** [ResolveBinding] inside the compiled function: its parameters, then
    its [arguments] object, then the global object. *)
Definition resolve (globals : list (string * value))
    (names : list string) (args : list value) (x : string) : option value :=
  match assoc x (combine names args) with
  | Some v => Some v
  | None =>
      if String.eqb x "arguments" then Some (VObject "arguments")
      else assoc x globals
  end.

(** The operand of [+] as a Number, when it is [undefined], [null] or a
    Number; anything else makes the sum a string. *)
Definition numeric (v : value) : option float :=
  match v with
  | VNumber x => Some x
  | VUndefined => Some nan
  | VNull => Some 0%float
  | _ => None
  end.

Definition js_add (a b : value) : value :=
  match numeric a, numeric b with
  | Some x, Some y => VNumber (x + y)%float
  | _, _ => VText
  end.

Definition number_of_literal (n : Z) : float := of_uint63 (Uint63.of_Z n).

(** [typeof] gives a string; on an identifier that resolves to nothing
    it gives "undefined" and throws nothing. *)
Fixpoint eval (scope : string -> option value) (e : expr) : completion :=
  match e with
  | ELit n => Returns (VNumber (number_of_literal n))
  | ENull => Returns VNull
  | EVar x =>
      match scope x with
      | Some v => Returns v
      | None => Throws (VError (reference_error x))
      end
  | ETypeof a =>
      match a with
      | EVar _ => Returns VText
      | _ =>
          match eval scope a with
          | Throws thrown => Throws thrown
          | Returns _ => Returns VText
          end
      end
  | EAdd a b =>
      match eval scope a with
      | Throws thrown => Throws thrown
      | Returns va =>
          match eval scope b with
          | Throws thrown => Throws thrown
          | Returns vb => Returns (js_add va vb)
          end
      end
  end.

(** The statements in order, up to the first [return] or [throw]; a
    body that ends without either returns [undefined]. *)
Fixpoint run (scope : string -> option value) (ss : list stmt) : completion :=
  match ss with
  | [] => Returns VUndefined
  | SEmpty :: rest => run scope rest
  | SExpr e :: rest =>
      match eval scope e with
      | Throws thrown => Throws thrown
      | Returns _ => run scope rest
      end
  | SReturn None :: _ => Returns VUndefined
  | SReturn (Some e) :: _ => eval scope e
  | SThrow e :: _ =>
      match eval scope e with
      | Throws thrown => Throws thrown
      | Returns v => Throws v
      end
  end.

Definition call (globals : list (string * value)) (f : closure)
    (args : list value) : completion :=
  run (resolve globals (params f) args) (body f).




(** Value properties and some constructors and namespaces of the global
    object that every ECMAScript host defines. *)
Definition standard_globals : list (string * value) :=
  [ ("globalThis", VObject "globalThis");
    ("Infinity", VNumber infinity);
    ("NaN", VNumber nan);
    ("undefined", VUndefined);
    ("Object", VObject "Object");
    ("Array", VObject "Array");
    ("Promise", VObject "Promise");
    ("Date", VObject "Date");
    ("Math", VObject "Math");
    ("JSON", VObject "JSON");
    ("console", VObject "globalThis.console") ].

Definition engine (globals : list (string * value)) : Engine :=
  Build_Engine closure compile (call globals).

End MiniJS.

(** ** More of the indicator kernel *)

Module Kernel2.

(** [prices.slice(-period)]: the last [period] elements, all of them
    when there are fewer; [slice(-0)] is [slice(0)], the whole array. *)
Definition slice_last (prices : list float) (period : nat) : list float :=
  match period with
  | O => prices
  | S _ => drop (length prices - period) prices
  end.

(** [reduce((a, b) => a + b, 0)] *)
Definition sum (values : list float) : float :=
  fold_left (fun a b => (a + b)%float) values 0%float.

(** [calculateSMA], lines 118-121. *)
Definition calculateSMA (prices : list float) (period : nat) : float :=
  let sum := sum (slice_last prices period) in
  (sum / number_of_nat period)%float.

(** [calculateTrend], lines 172-179. *)
Definition calculateTrend (values : list float) : string :=
  let firstValue := to_number (at_index values 0) in
  let lastValue := to_number (at_index values (Z.of_nat (length values) - 1)) in
  let change := ((lastValue - firstValue) / firstValue * 100)%float in
  if (5 <? change)%float then "Upward"
  else if (change <? -5)%float then "Downward"
  else "Sideways".

(** Every step of the last [period] transitions goes strictly down. *)
Definition falling_window (prices : list float) (period : nat) : bool :=
  forallb
    (fun i => (to_number (at_index prices i) <? to_number (at_index prices (i - 1)))%float)
    (loop_indices (Z.of_nat (length prices) - Z.of_nat period) period).

End Kernel2.

(** ** Listings and investors, lines 380-430 *)

Module Listings.

(** Truthiness of an optional string: present and not empty. *)
Definition truthy_string (v : option string) : bool :=
  match v with
  | Some (String _ _) => true
  | _ => false
  end.

(** [a || b] on optional strings. *)
Definition or_string (a b : option string) : option string :=
  if truthy_string a then a else b.

(** An entry of [metadata.cexs]; identifiers are taken as strings. *)
Record cex := {
  cex_id : option string;
  cex_name : option string;
  cex_logo : option string
}.

Record exchange := {
  exchange_name : option string;
  exchange_logo : option string
}.

Record cex_report := {
  totalListings : nat;
  exchanges : list exchange
}.

(** An entry of [metadata.investors]. *)
Record investor := {
  investor_name : option string;
  investor_type : option string;
  investor_lead : option bool;
  investor_country_name : option string;
  investor_image : option string
}.

Record formatted_investor := {
  name : option string;
  type : option string;
  isLead : option bool;
  country : option string;
  image : option string
}.

Record investor_report := {
  totalInvestors : nat;
  leadInvestors : list (option string);
  vcInvestors : nat;
  angelInvestors : nat;
  allInvestors : list formatted_investor
}.

(** The part of a metadata response these functions read; [None] is a
    field that is absent or is not an array. *)
Record metadata := {
  metadata_cexs : option (list cex);
  metadata_investors : option (list investor)
}.

Definition is_type (label : string) (inv : formatted_investor) : bool :=
  match type inv with
  | Some t => String.eqb t label
  | None => false
  end.

Definition is_lead (inv : formatted_investor) : bool :=
  match isLead inv with
  | Some true => true
  | _ => false
  end.

Section WithProvider.
Variable fetchMetadata : string -> option metadata.
Variable coins : list coin.

(** [cexs], lines 380-400. *)
Definition cexs (token : string) : string + cex_report :=
  let normalizedToken := getTokenName coins token in
  match fetchMetadata normalizedToken with
  | Some {| metadata_cexs := Some listed |} =>
      let formattedCexs :=
        map (fun c => {| exchange_name := or_string (cex_name c) (cex_id c);
                         exchange_logo := or_string (cex_logo c) None |})
            (List.filter (fun c => truthy_string (cex_id c)) listed) in
      inr {| totalListings := length formattedCexs; exchanges := formattedCexs |}
  | _ => inl "No CEX listing information available"
  end.

(** [investors], lines 402-430. *)
Definition investors (token : string) : string + investor_report :=
  let normalizedToken := getTokenName coins token in
  match fetchMetadata normalizedToken with
  | Some {| metadata_investors := Some listed |} =>
      let formattedInvestors :=
        map (fun i => {| name := investor_name i;
                         type := investor_type i;
                         isLead := investor_lead i;
                         country := or_string (investor_country_name i) (Some "Unknown");
                         image := investor_image i |})
            listed in
      inr {| totalInvestors := length formattedInvestors;
             leadInvestors := map name (List.filter is_lead formattedInvestors);
             vcInvestors := length (List.filter (is_type "Ventures Capital") formattedInvestors);
             angelInvestors := length (List.filter (is_type "Angel Investor") formattedInvestors);
             allInvestors := formattedInvestors |}
  | _ => inl "No investor information available"
  end.

End WithProvider.
End Listings.

(** ** History requests, lines 17-34, 84-98, 479-507 and 718-726

    The lookups are modelled up to the parameters they hand to
    [axios.get]; [Date.now()] is the parameter [now]. *)

Module Requests.

(** An argument as a caller may pass it. *)
Inductive param :=
| PUndefined
| PNull
| PNumber (f : float)
| PString (s : string)
| PArray (items : list string).

Record history_request := { asset : param; from : param; to : param }.

Record portfolio_request := { wallets : string; since : param; until : param }.

(** A parameter declared with [= null]. *)
Definition default_null (p : param) : param :=
  match p with
  | PUndefined => PNull
  | _ => p
  end.

(** [fetchPriceHistory], lines 17-34. *)
Definition fetchPriceHistory (coinname from to : param) : history_request :=
  {| asset := coinname; from := default_null from; to := default_null to |}.

(** [addresses.join(",")]: only an array has [join]. *)
Definition join (addresses : param) : error + string :=
  match addresses with
  | PArray items => inr (String.concat "," items)
  | PUndefined =>
      inl {| error_name := "TypeError";
             message := "Cannot read properties of undefined (reading 'join')" |}
  | PNull =>
      inl {| error_name := "TypeError";
             message := "Cannot read properties of null (reading 'join')" |}
  | _ =>
      inl {| error_name := "TypeError";
             message := "addresses.join is not a function" |}
  end.

(** [fetchHistoricPortfolioData], lines 84-98. *)
Definition fetchHistoricPortfolioData (from to addresses : param)
    : error + portfolio_request :=
  match join addresses with
  | inr joined => inr {| wallets := joined; since := from; until := to |}
  | inl e => inl e
  end.

(** [priceHistoryData] and [getPriceHistory], lines 479-484 and
    501-507: the same body. *)
Definition priceHistoryData (coins : list coin) (now : float)
    (token period : string) : history_request :=
  let normalizedToken := getTokenName coins token in
  let from := window_start TIME_PERIODS now period in
  fetchPriceHistory (PString normalizedToken) (PNumber from) (PNumber now).

(** [getHistoricPortfolioData], lines 487-491. *)
Definition getHistoricPortfolioData (now : float) (addresses : param)
    (period : string) : error + portfolio_request :=
  let from := window_start TIME_PERIODS now period in
  fetchHistoricPortfolioData (PNumber from) (PNumber now) addresses.

(** The entries of [context], lines 718-723: they pass their own
    arguments on, in their own order. *)
Definition context_getPriceHistory (token period : param) : history_request :=
  fetchPriceHistory token period PUndefined.

Definition context_getHistoricPortfolioData (addresses period : param)
    : error + portfolio_request :=
  fetchHistoricPortfolioData addresses period PUndefined.

End Requests.

(** ** Categories of a listed coin, line 619 *)

Module Categories.

(** [s.split(",")]: the pieces between the commas, in order; a string
    with no comma, the empty one too, is one piece. *)
Fixpoint split_commas (s : string) : list string :=
  match s with
  | EmptyString => [EmptyString]
  | String c rest =>
      if Ascii.eqb c "," then EmptyString :: split_commas rest
      else
        match split_commas rest with
        | piece :: pieces => String c piece :: pieces
        | [] => [String c EmptyString]
        end
  end.

(** [coin.categories ? coin.categories.split(",") : []]; [None] is a
    field that is absent. *)
Definition categories (field : option string) : list string :=
  match field with
  | Some (String c rest) => split_commas (String c rest)
  | _ => []
  end.

Fixpoint has_comma (s : string) : bool :=
  match s with
  | EmptyString => false
  | String c rest => Ascii.eqb c "," || has_comma rest
  end.

End Categories.

(** ** Vocabulary of the properties of strings *)

Definition starts_with_whitespace (s : string) : bool :=
  match s with
  | String c _ => is_whitespace c
  | EmptyString => false
  end.

Fixpoint ends_with_whitespace (s : string) : bool :=
  match s with
  | EmptyString => false
  | String c EmptyString => is_whitespace c
  | String _ s' => ends_with_whitespace s'
  end.

Fixpoint all_whitespace (s : string) : bool :=
  match s with
  | EmptyString => true
  | String c s' => is_whitespace c && all_whitespace s'
  end.

(** ** Vocabulary of the proofs about binary64 values *)

Module Binary64Defs.

(** The value of a finite float counted in units of the smallest
    subnormal, [2^-1074]. *)
Definition units (x : spec_float) : Z :=
  match x with
  | S754_finite _ m e => Zpos m * 2 ^ (e + 1074)
  | _ => 0
  end.

(** Strictly positive values: positive finite numbers and [+Infinity]. *)
Definition positive_float (x : spec_float) : Prop :=
  x = S754_infinity false \/ exists m e, x = S754_finite false m e.

(** A positive value of at least [k] units. *)
Definition at_least (k : Z) (x : spec_float) : Prop :=
  x = S754_infinity false \/
  exists m e, x = S754_finite false m e /\ k <= units x.

(** The accumulators of [calculateRSI] after [k] rising steps: nothing
    was added yet, or [gains] is worth at least [k] units. *)
Definition rising_gains (k : Z) (gains : float) : Prop :=
  (k = 0 /\ gains = 0%float) \/ (0 < k /\ at_least k (Prim2SF gains)).

(** The accumulators of [calculateRSI] over a flat window. *)
Definition flat_acc (acc : float * float) : Prop :=
  fst acc = 0%float /\ (snd acc = 0%float \/ snd acc = nan).

End Binary64Defs.

(* ================================================================== *)
(** * Part II: properties                                              *)
(* ================================================================== *)

(** ** Binary64 arithmetic

    Facts about the specification of binary64 operations ([SpecFloat])
    that the kernel's proofs need: rounding a value that is at least the
    smallest subnormal never gives zero, sums of positive values are
    exact below [2^53] units, and a difference of ordered values is
    positive. *)

Module Binary64.
Import Binary64Defs.

Lemma fexp_eq e : fexp prec emax e = Z.max (e - 53) (-1074).
Proof. reflexivity. Qed.

Lemma digits2_pos_bounds p :
  2 ^ (Zpos (digits2_pos p) - 1) <= Zpos p < 2 ^ Zpos (digits2_pos p).
Proof.
  induction p as [p IH | p IH |]; simpl digits2_pos.
  - rewrite Pos2Z.inj_succ.
    replace (Z.succ (Zpos (digits2_pos p)) - 1) with (Zpos (digits2_pos p) - 1 + 1) by lia.
    rewrite Z.pow_succ_r by lia. rewrite Z.pow_add_r by lia. lia.
  - rewrite Pos2Z.inj_succ.
    replace (Z.succ (Zpos (digits2_pos p)) - 1) with (Zpos (digits2_pos p) - 1 + 1) by lia.
    rewrite Z.pow_succ_r by lia. rewrite Z.pow_add_r by lia. lia.
  - simpl. lia.
Qed.

Lemma Zdigits2_bounds m :
  0 < m -> 2 ^ (Zdigits2 m - 1) <= m < 2 ^ Zdigits2 m.
Proof.
  destruct m as [| p | p]; try lia. intros _. apply digits2_pos_bounds.
Qed.

Lemma Zdigits2_pos m : 0 < m -> 0 < Zdigits2 m.
Proof. destruct m; simpl; lia. Qed.

Lemma Zdigits2_lower m j : 0 <= j -> 2 ^ j <= m -> j + 1 <= Zdigits2 m.
Proof.
  intros Hj Hm.
  assert (0 < m) by (pose proof (Z.pow_pos_nonneg 2 j); lia).
  destruct (Zdigits2_bounds m H) as [_ Hu].
  destruct (Z_lt_le_dec (Zdigits2 m) (j + 1)) as [Hlt | ]; [| lia].
  exfalso.
  assert (2 ^ Zdigits2 m <= 2 ^ j).
  { apply Z.pow_le_mono_r; try lia. }
  lia.
Qed.

Lemma Zdigits2_upper m j : 0 <= j -> 0 < m -> m < 2 ^ j -> Zdigits2 m <= j.
Proof.
  intros Hj Hm Hlt.
  destruct (Zdigits2_bounds m Hm) as [Hl _].
  destruct (Z_lt_le_dec j (Zdigits2 m)) as [Hc | ]; [| lia].
  exfalso.
  assert (2 ^ j <= 2 ^ (Zdigits2 m - 1)) by (apply Z.pow_le_mono_r; lia).
  lia.
Qed.

Lemma Zdigits2_mono m n : 0 < m -> m <= n -> Zdigits2 m <= Zdigits2 n.
Proof.
  intros Hm Hn.
  pose proof (Zdigits2_pos m Hm).
  destruct (Zdigits2_bounds m Hm) as [Hl _].
  pose proof (Zdigits2_lower n (Zdigits2 m - 1)). lia.
Qed.

Lemma pow2_le_div m a k : 0 <= k <= a -> 2 ^ a <= m -> 2 ^ (a - k) <= m / 2 ^ k.
Proof.
  intros Hk Hm.
  apply Z.div_le_lower_bound; [apply Z.pow_pos_nonneg; lia|].
  rewrite <- Z.pow_add_r by lia. replace (k + (a - k)) with a by lia. exact Hm.
Qed.

(** shifting a rounding record *)
Lemma shr_1_m r : 0 <= shr_m r -> shr_m (shr_1 r) = shr_m r / 2.
Proof.
  destruct r as [m rb sb]; simpl. intros Hm.
  destruct m as [| [p | p |] | p]; simpl shr_m; try lia; try reflexivity.
  - apply Z.div_unique with 1; lia.
  - apply Z.div_unique with 0; lia.
Qed.

Lemma iter_shr_1_m p : forall r,
  0 <= shr_m r -> shr_m (iter_pos shr_1 p r) = shr_m r / 2 ^ Zpos p.
Proof.
  assert (Hnn : forall q r, 0 <= shr_m r -> 0 <= shr_m r / 2 ^ Zpos q).
  { intros. apply Z.div_pos; [lia | apply Z.pow_pos_nonneg; lia]. }
  induction p as [p IH | p IH |]; intros r Hr; simpl iter_pos.
  - assert (H1 : 0 <= shr_m (shr_1 r)) by (rewrite shr_1_m by lia; apply Z.div_pos; lia).
    rewrite IH; rewrite IH by lia; [| apply Hnn; lia].
    rewrite shr_1_m by lia.
    rewrite !Z.div_div by (try lia; apply Z.pow_pos_nonneg; lia).
    f_equal.
    replace (Zpos p~1) with (1 + Zpos p + Zpos p) by lia.
    rewrite !Z.pow_add_r by lia. rewrite Z.pow_1_r. lia.
  - rewrite IH; rewrite IH by lia; [| apply Hnn; lia].
    rewrite !Z.div_div by (try lia; apply Z.pow_pos_nonneg; lia).
    f_equal.
    replace (Zpos p~0) with (Zpos p + Zpos p) by lia.
    rewrite !Z.pow_add_r by lia. lia.
  - change (2 ^ 1) with 2. apply shr_1_m; lia.
Qed.

Lemma shr_record_of_loc_m m l : shr_m (shr_record_of_loc m l) = m.
Proof. destruct l as [| []]; reflexivity. Qed.

(** [shr] divides the mantissa by [2^n] and moves the exponent up. *)
Lemma shr_spec r e n :
  0 <= shr_m r ->
  shr_m (fst (shr r e n)) = shr_m r / 2 ^ Z.max n 0 /\
  snd (shr r e n) = e + Z.max n 0.
Proof.
  intros Hr. destruct n as [| p | p]; simpl.
  - rewrite Z.div_1_r. lia.
  - rewrite iter_shr_1_m by lia. split; [reflexivity | lia].
  - rewrite Z.div_1_r. lia.
Qed.

Lemma round_nearest_even_bounds m l :
  m <= round_nearest_even m l <= m + 1.
Proof.
  destruct l as [| []]; simpl; try lia. destruct (Z.even m); lia.
Qed.


(** Rounding a positive mantissa whose value is at least the smallest
    subnormal never produces zero or NaN, and never lowers the exponent. *)
Lemma binary_round_aux_pos sx mx ex lx :
  0 < mx -> -1074 < Zdigits2 mx + ex ->
  binary_round_aux prec emax sx mx ex lx = S754_infinity sx \/
  exists m e, binary_round_aux prec emax sx mx ex lx = S754_finite sx m e /\
              ex <= e /\ fexp prec emax (Zdigits2 mx + ex) <= e.
Proof.
  intros Hm HD. unfold binary_round_aux, shr_fexp.
  set (D := Zdigits2 mx + ex) in *.
  set (k := fexp prec emax D - ex).
  destruct (shr (shr_record_of_loc mx lx) ex k) as [mrs1 e1] eqn:E1.
  pose proof (shr_spec (shr_record_of_loc mx lx) ex k) as S1.
  rewrite E1, shr_record_of_loc_m in S1. simpl fst in S1; simpl snd in S1.
  destruct S1 as [Sm Se]; [lia|].
  set (m1 := shr_m mrs1) in *.
  set (m2 := round_nearest_even m1 (loc_of_shr_record mrs1)).
  pose proof (round_nearest_even_bounds m1 (loc_of_shr_record mrs1)) as Hr.
  fold m2 in Hr.
  pose proof (Zdigits2_bounds mx Hm) as [Hlo _].
  pose proof (Zdigits2_pos mx Hm) as Hdp.
  assert (HK : Z.max k 0 <= Zdigits2 mx - 1).
  { unfold k. rewrite fexp_eq. unfold D in *. lia. }
  assert (Hm1 : 2 ^ (Zdigits2 mx - 1 - Z.max k 0) <= m1).
  { rewrite Sm. apply pow2_le_div; [lia | exact Hlo]. }
  assert (Hd1 : Zdigits2 mx - Z.max k 0 <= Zdigits2 m1).
  { pose proof (Zdigits2_lower m1 (Zdigits2 mx - 1 - Z.max k 0)). lia. }
  assert (Hm1p : 0 < m1).
  { pose proof (Z.pow_pos_nonneg 2 (Zdigits2 mx - 1 - Z.max k 0)). lia. }
  assert (Hd2 : Zdigits2 m1 <= Zdigits2 m2) by (apply Zdigits2_mono; lia).
  set (k2 := fexp prec emax (Zdigits2 m2 + e1) - e1).
  destruct (shr (shr_record_of_loc m2 loc_Exact) e1 k2) as [mrs2 e2] eqn:E2.
  pose proof (shr_spec (shr_record_of_loc m2 loc_Exact) e1 k2) as S2.
  rewrite E2 in S2. simpl fst in S2; simpl snd in S2. simpl shr_m in S2.
  destruct S2 as [Sm2 Se2]; [lia|].
  assert (Hm2 : 0 < m2) by lia.
  pose proof (Zdigits2_bounds m2 Hm2) as [Hlo2 _].
  assert (HK2 : Z.max k2 0 <= Zdigits2 m2 - 1).
  { unfold k2. rewrite fexp_eq. unfold D in *. lia. }
  assert (Hm3 : 2 ^ (Zdigits2 m2 - 1 - Z.max k2 0) <= shr_m mrs2).
  { rewrite Sm2. apply pow2_le_div; [lia | exact Hlo2]. }
  assert (Hm3p : 0 < shr_m mrs2).
  { pose proof (Z.pow_pos_nonneg 2 (Zdigits2 m2 - 1 - Z.max k2 0)). lia. }
  destruct (shr_m mrs2) as [| m3 | m3]; try lia.
  destruct (e2 <=? emax - prec).
  - right. exists m3, e2. split; [reflexivity|]. unfold k in *. lia.
  - left. reflexivity.
Qed.


Lemma valid_finite s m e :
  valid_binary (S754_finite s m e) = true ->
  Z.max (Zpos (digits2_pos m) + e - 53) (-1074) = e /\ e <= 971.
Proof.
  unfold SpecFloat.valid_binary, bounded, canonical_mantissa.
  rewrite andb_true_iff, Z.eqb_eq, Z.leb_le, fexp_eq.
  change (emax - prec) with 971. tauto.
Qed.

Lemma iter_xO_value d : forall m,
  Zpos (Pos.iter xO m d) = Zpos m * 2 ^ Zpos d.
Proof.
  induction d as [| d IH] using Pos.peano_ind; intros m.
  - simpl. lia.
  - rewrite Pos.iter_succ, Pos2Z.inj_succ, Z.pow_succ_r by lia.
    rewrite Pos2Z.inj_xO, IH. lia.
Qed.

Lemma shl_align_spec m e e' :
  e' <= e ->
  Zpos (fst (shl_align m e e')) = Zpos m * 2 ^ (e - e') /\
  snd (shl_align m e e') = e'.
Proof.
  intros He. unfold shl_align.
  destruct (e' - e) as [| d | d] eqn:Ed; simpl fst; simpl snd; try lia.
  - replace (e - e') with 0 by lia. lia.
  - rewrite iter_xO_value. replace (e - e') with (Zpos d) by lia. lia.
Qed.

Lemma shl_align_id m e e' : e <= e' -> shl_align m e e' = (m, e).
Proof.
  intros He. unfold shl_align. destruct (e' - e) eqn:Ed; try reflexivity; lia.
Qed.

Lemma Zdigits2_shift m j :
  0 < m -> 0 <= j -> Zdigits2 (m * 2 ^ j) = Zdigits2 m + j.
Proof.
  intros Hm Hj.
  pose proof (Z.pow_pos_nonneg 2 j ltac:(lia) Hj) as Hp.
  destruct (Zdigits2_bounds m Hm) as [Hl Hu].
  pose proof (Zdigits2_pos m Hm) as Hd.
  assert (Hmj : 0 < m * 2 ^ j) by nia.
  apply Z.le_antisymm.
  - apply Zdigits2_upper; try lia. rewrite Z.pow_add_r by lia. nia.
  - pose proof (Zdigits2_lower (m * 2 ^ j) (Zdigits2 m - 1 + j)) as H.
    rewrite Z.pow_add_r in H by lia.
    assert (2 ^ (Zdigits2 m - 1) * 2 ^ j <= m * 2 ^ j) by nia. lia.
Qed.

(** A canonical mantissa passes through rounding unchanged. *)
Lemma binary_round_aux_canonical sx m e :
  fexp prec emax (Zpos (digits2_pos m) + e) = e -> e <= emax - prec ->
  binary_round_aux prec emax sx (Zpos m) e loc_Exact = S754_finite sx m e.
Proof.
  intros Hc He. unfold binary_round_aux, shr_fexp.
  cbn [Zdigits2]. rewrite Hc, Z.sub_diag.
  cbn [shr shr_record_of_loc shr_m loc_of_shr_record round_nearest_even Zdigits2].
  rewrite Hc, Z.sub_diag. cbn [shr shr_record_of_loc shr_m].
  apply Z.leb_le in He. rewrite He. reflexivity.
Qed.

(** When the target exponent is not above the given one, [binary_round]
    only realigns the mantissa: the value is kept exactly. *)
Lemma binary_round_exact sx M ez :
  fexp prec emax (Zpos (digits2_pos M) + ez) <= ez -> ez <= emax - prec ->
  exists m,
    binary_round prec emax sx M ez =
      S754_finite sx m (fexp prec emax (Zpos (digits2_pos M) + ez)) /\
    Zpos m = Zpos M * 2 ^ (ez - fexp prec emax (Zpos (digits2_pos M) + ez)).
Proof.
  intros Ht He. unfold binary_round.
  set (t := fexp prec emax (Zpos (digits2_pos M) + ez)) in *.
  destruct (shl_align_spec M ez t Ht) as [Hv Hs].
  destruct (shl_align M ez t) as [mz e'] eqn:E. cbn [fst snd] in Hv, Hs. subst e'.
  exists mz. split; [| exact Hv].
  apply binary_round_aux_canonical; [| lia].
  change (Zpos (digits2_pos mz)) with (Zdigits2 (Zpos mz)).
  rewrite Hv, Zdigits2_shift by lia. simpl Zdigits2.
  replace (Zpos (digits2_pos M) + (ez - t) + t) with (Zpos (digits2_pos M) + ez) by lia.
  reflexivity.
Qed.

(** Normalising a positive integer at an exponent of the format gives a
    positive float or overflows. *)
Lemma binary_round_pos sx M ez :
  -1074 <= ez ->
  binary_round prec emax sx M ez = S754_infinity sx \/
  exists m e, binary_round prec emax sx M ez = S754_finite sx m e /\
              fexp prec emax (Zpos (digits2_pos M) + ez) <= e.
Proof.
  intros He. unfold binary_round.
  set (t := fexp prec emax (Zpos (digits2_pos M) + ez)).
  assert (Ht : -1074 <= t) by (unfold t; rewrite fexp_eq; lia).
  destruct (Z_le_gt_dec t ez) as [Hle | Hgt].
  - destruct (shl_align_spec M ez t Hle) as [Hv Hs].
    destruct (shl_align M ez t) as [mz e'] eqn:E. cbn [fst snd] in Hv, Hs. subst e'.
    assert (Hd : Zdigits2 (Zpos mz) + t = Zpos (digits2_pos M) + ez).
    { rewrite Hv, Zdigits2_shift by lia. simpl Zdigits2. lia. }
    destruct (binary_round_aux_pos sx (Zpos mz) t loc_Exact) as [H | (m & e & H & H1 & H2)];
      [lia | pose proof (Zdigits2_pos (Zpos mz)); lia | left; exact H |].
    right. exists m, e. split; [exact H |]. rewrite Hd in H2. exact H2.
  - rewrite shl_align_id by lia.
    destruct (binary_round_aux_pos sx (Zpos M) ez loc_Exact) as [H | (m & e & H & H1 & H2)];
      [lia | cbn [Zdigits2]; lia | left; exact H |].
    right. exists m, e. split; [exact H | exact H2].
Qed.


Lemma units_pos s m e :
  valid_binary (S754_finite s m e) = true -> 1 <= units (S754_finite s m e).
Proof.
  intros Hv. apply valid_finite in Hv. cbn [units].
  assert (0 < 2 ^ (e + 1074)) by (apply Z.pow_pos_nonneg; lia). nia.
Qed.

(** A sum of two positive floats is positive; it is exact while it stays
    below [2^53] units and never falls below that afterwards. *)
Lemma SFadd_pos_units m1 e1 m2 e2 :
  let x := S754_finite false m1 e1 in
  let y := S754_finite false m2 e2 in
  valid_binary x = true -> valid_binary y = true ->
  valid_binary (SF64add x y) = true ->
  SF64add x y = S754_infinity false \/
  exists m e, SF64add x y = S754_finite false m e /\
              Z.min (units x + units y) (2 ^ 53) <= units (S754_finite false m e).
Proof.
  intros x y Hx Hy Hr.
  pose proof (valid_finite _ _ _ Hx) as [Hcx Hex].
  pose proof (valid_finite _ _ _ Hy) as [Hcy Hey].
  unfold SF64add, SFadd, x, y in *. cbn [cond_Zopp] in *.
  set (ez := Z.min e1 e2) in *.
  assert (Hez : ez <= e1 /\ ez <= e2 /\ -1074 <= ez) by (unfold ez; lia).
  destruct (shl_align_spec m1 e1 ez) as [Hv1 _]; [lia|].
  destruct (shl_align_spec m2 e2 ez) as [Hv2 _]; [lia|].
  set (a1 := fst (shl_align m1 e1 ez)) in *.
  set (a2 := fst (shl_align m2 e2 ez)) in *.
  change (Zpos a1 + Zpos a2) with (Zpos (a1 + a2)) in *.
  cbn [binary_normalize] in *.
  assert (Hsum : Zpos (a1 + a2) * 2 ^ (ez + 1074) =
                 Zpos m1 * 2 ^ (e1 + 1074) + Zpos m2 * 2 ^ (e2 + 1074)).
  { rewrite Pos2Z.inj_add, Hv1, Hv2.
    replace (e1 + 1074) with ((e1 - ez) + (ez + 1074)) by lia.
    replace (e2 + 1074) with ((e2 - ez) + (ez + 1074)) by lia.
    rewrite (Z.pow_add_r 2 (e1 - ez)), (Z.pow_add_r 2 (e2 - ez)) by lia. ring. }
  set (t := fexp prec emax (Zpos (digits2_pos (a1 + a2)) + ez)).
  assert (Ht : -1074 <= t) by (unfold t; rewrite fexp_eq; lia).
  destruct (Z_le_gt_dec t ez) as [Hle | Hgt].
  - destruct (binary_round_exact false (a1 + a2) ez) as (m & Hm & Hval);
      [exact Hle | change (emax - prec) with 971; lia |].
    right. exists m, t. split; [exact Hm |].
    cbn [units]. fold t in Hval. rewrite Hval.
    rewrite <- Z.mul_assoc, <- Z.pow_add_r by lia.
    replace (ez - t + (t + 1074)) with (ez + 1074) by lia.
    rewrite Hsum. lia.
  - destruct (binary_round_pos false (a1 + a2) ez) as [H | (m & e & H & H1)];
      [lia | left; exact H |].
    right. exists m, e. split; [exact H |].
    rewrite H in Hr. apply valid_finite in Hr. destruct Hr as [Hc He].
    fold t in H1.
    assert (Hd : Zpos (digits2_pos m) = 53) by lia.
    pose proof (digits2_pos_bounds m) as [Hlo _]. rewrite Hd in Hlo.
    cbn [units].
    assert (2 ^ 1 <= 2 ^ (e + 1074)) by (apply Z.pow_le_mono_r; lia).
    change (2 ^ (53 - 1)) with 4503599627370496 in Hlo.
    change (2 ^ 53) with 9007199254740992.
    change (2 ^ 1) with 2 in *. nia.
Qed.


(** Canonical representations order by exponent first. *)
Lemma valid_lt_exp s1 m1 e1 s2 m2 e2 :
  valid_binary (S754_finite s1 m1 e1) = true ->
  valid_binary (S754_finite s2 m2 e2) = true ->
  e1 < e2 -> Zpos m1 < Zpos m2 * 2 ^ (e2 - e1).
Proof.
  intros H1 H2 He.
  apply valid_finite in H1. apply valid_finite in H2.
  assert (Hd2 : Zpos (digits2_pos m2) = 53) by lia.
  assert (Hd1 : Zpos (digits2_pos m1) <= 53) by lia.
  pose proof (digits2_pos_bounds m2) as [Hlo _]. rewrite Hd2 in Hlo.
  pose proof (digits2_pos_bounds m1) as [_ Hhi].
  assert (2 ^ Zpos (digits2_pos m1) <= 2 ^ 53) by (apply Z.pow_le_mono_r; lia).
  assert (2 ^ 1 <= 2 ^ (e2 - e1)) by (apply Z.pow_le_mono_r; lia).
  change (2 ^ (53 - 1)) with 4503599627370496 in Hlo.
  change (2 ^ 53) with 9007199254740992 in *.
  change (2 ^ 1) with 2 in *. nia.
Qed.

Lemma SFltb_aligned sa ma ea sb mb eb :
  valid_binary (S754_finite sa ma ea) = true ->
  valid_binary (S754_finite sb mb eb) = true ->
  SFltb (S754_finite sa ma ea) (S754_finite sb mb eb) = true ->
  0 < cond_Zopp sb (Zpos mb * 2 ^ (eb - Z.min eb ea))
      - cond_Zopp sa (Zpos ma * 2 ^ (ea - Z.min eb ea)).
Proof.
  intros Ha Hb Hlt.
  assert (Hab : ea < eb -> Zpos ma < Zpos mb * 2 ^ (eb - ea))
    by (apply valid_lt_exp with sa sb; assumption).
  assert (Hba : eb < ea -> Zpos mb < Zpos ma * 2 ^ (ea - eb))
    by (apply valid_lt_exp with sb sa; assumption).
  assert (Hpa : 0 < Zpos ma * 2 ^ (ea - Z.min eb ea)).
  { assert (0 < 2 ^ (ea - Z.min eb ea)) by (apply Z.pow_pos_nonneg; lia). nia. }
  assert (Hpb : 0 < Zpos mb * 2 ^ (eb - Z.min eb ea)).
  { assert (0 < 2 ^ (eb - Z.min eb ea)) by (apply Z.pow_pos_nonneg; lia). nia. }
  unfold SFltb, SFcompare in Hlt.
  change (Pos.compare_cont Eq ma mb) with (Pos.compare ma mb) in Hlt.
  destruct sa, sb; cbn [cond_Zopp]; try discriminate; try lia.
  - destruct (Z.compare_spec ea eb) as [E | E | E]; try discriminate.
    + subst eb. rewrite Z.min_id, Z.sub_diag, Z.pow_0_r.
      destruct (Pos.compare_spec ma mb); try discriminate. lia.
    + rewrite Z.min_l by lia. rewrite Z.sub_diag, Z.pow_0_r. specialize (Hba E). lia.
  - destruct (Z.compare_spec ea eb) as [E | E | E]; try discriminate.
    + subst eb. rewrite Z.min_id, Z.sub_diag, Z.pow_0_r.
      destruct (Pos.compare_spec ma mb); try discriminate. lia.
    + rewrite Z.min_r by lia. rewrite Z.sub_diag, Z.pow_0_r. specialize (Hab E). lia.
Qed.

(** A strictly larger float minus a smaller one is a positive float. *)
Lemma SFsub_lt_pos a b :
  valid_binary a = true -> valid_binary b = true ->
  SFltb a b = true -> positive_float (SF64sub b a).
Proof.
  intros Ha Hb Hlt.
  destruct a as [sa | sa | | sa ma ea], b as [sb | sb | | sb mb eb];
    try discriminate Hlt;
    try (destruct sa; try discriminate Hlt);
    try (destruct sb; try discriminate Hlt);
    try (left; reflexivity);
    try (right; eexists; eexists; reflexivity).
  all: pose proof (SFltb_aligned _ _ _ _ _ _ Ha Hb Hlt) as HD.
  all: pose proof (valid_finite _ _ _ Ha) as [Hca _].
  all: pose proof (valid_finite _ _ _ Hb) as [Hcb _].
  all: unfold SF64sub, SFsub.
  all: destruct (shl_align_spec mb eb (Z.min eb ea)) as [Hvb _]; [lia|].
  all: destruct (shl_align_spec ma ea (Z.min eb ea)) as [Hva _]; [lia|].
  all: rewrite Hvb, Hva.
  all: match goal with
       | |- positive_float (binary_normalize _ _ ?D _ _) =>
           destruct D as [| Dp | Dp] eqn:ED; try lia
       end.
  all: cbn [binary_normalize].
  all: destruct (binary_round_pos false Dp (Z.min eb ea)) as [H | (m & e & H & _)];
       [lia | left; exact H | right; exists m, e; exact H].
Qed.


(** A positive float divided by a positive float not above it (counted in
    units of the smallest subnormal) is not rounded down to zero. *)
Lemma SFdiv_pos_nonzero mx ex my ey :
  let x := S754_finite false mx ex in
  let y := S754_finite false my ey in
  valid_binary x = true -> valid_binary y = true ->
  ey <= 0 -> Zpos my <= Zpos mx * 2 ^ (ex + 1074 - ey) ->
  positive_float (SF64div x y).
Proof.
  intros x y Hx Hy Hey Hle.
  pose proof (valid_finite _ _ _ Hx) as [Hcx Hex].
  pose proof (valid_finite _ _ _ Hy) as [Hcy _].
  unfold SF64div, SFdiv, x, y, SFdiv_core_binary. cbn [xorb Zdigits2].
  set (d1 := Zpos (digits2_pos mx)) in *.
  set (d2 := Zpos (digits2_pos my)) in *.
  set (e' := Z.min (fexp prec emax (d1 + ex - (d2 + ey))) (ex - ey)).
  set (s := ex - ey - e').
  assert (Hs : 0 <= s) by (unfold s, e'; lia).
  set (m' := match s with Zpos _ => Z.shiftl (Zpos mx) s | Z0 => Zpos mx | Zneg _ => 0 end).
  assert (Hm' : m' = Zpos mx * 2 ^ s).
  { unfold m'. destruct s as [| p | p] eqn:Es; try lia.
    rewrite Z.shiftl_mul_pow2 by lia. reflexivity. }
  destruct (Z.div_eucl m' (Zpos my)) as [q r] eqn:Eq.
  assert (Hq : q = m' / Zpos my) by (unfold Z.div; rewrite Eq; reflexivity).
  pose proof (digits2_pos_bounds mx) as [Hlx _]. fold d1 in Hlx.
  pose proof (digits2_pos_bounds my) as [_ Huy]. fold d2 in Huy.
  assert (Hgoal : 0 < q /\ -1074 < Zdigits2 q + e').
  { destruct (Z_le_gt_dec e' (-1074)) as [Hlow | Hhigh].
    - assert (Hb : 2 ^ (-1074 - e') <= q).
      { rewrite Hq. apply Z.div_le_lower_bound; [lia|].
        rewrite Hm'. unfold s.
        replace (ex - ey - e') with ((ex + 1074 - ey) + (-1074 - e')) by lia.
        rewrite Z.pow_add_r by lia.
        assert (0 < 2 ^ (-1074 - e')) by (apply Z.pow_pos_nonneg; lia). nia. }
      assert (0 < 2 ^ (-1074 - e')) by (apply Z.pow_pos_nonneg; lia).
      pose proof (Zdigits2_lower q (-1074 - e')). lia.
    - assert (He' : e' <= d1 + ex - (d2 + ey) - 53).
      { unfold e' in *. rewrite fexp_eq in *. lia. }
      assert (Hb : 1 <= q).
      { rewrite Hq. apply Z.div_le_lower_bound; [lia|]. rewrite Hm'.
        assert (2 ^ (d2 + 53 - d1) <= 2 ^ s) by (apply Z.pow_le_mono_r; unfold s; lia).
        assert (2 ^ (d1 - 1) * 2 ^ (d2 + 53 - d1) = 2 ^ (d2 + 52)).
        { rewrite <- Z.pow_add_r by (unfold d1, d2; lia). f_equal. lia. }
        assert (2 ^ d2 <= 2 ^ (d2 + 52)) by (apply Z.pow_le_mono_r; unfold d2; lia).
        assert (0 < 2 ^ (d1 - 1)) by (apply Z.pow_pos_nonneg; unfold d1; lia).
        nia. }
      pose proof (Zdigits2_pos q). lia. }
  destruct Hgoal as [Hq0 Hqd].
  destruct (binary_round_aux_pos false q e' (new_location (Zpos my) r) Hq0 Hqd)
    as [H | (m & e & H & _)]; [left; exact H | right; exists m, e; exact H].
Qed.

(** Integers below [2^53] convert exactly. *)
Lemma binary_normalize_small n :
  0 < n < 2 ^ 53 ->
  exists m e, binary_normalize prec emax n 0 false = S754_finite false m e /\
              e <= 0 /\ Zpos m = n * 2 ^ (- e).
Proof.
  intros Hn. destruct n as [| p | p]; try lia. cbn [binary_normalize].
  assert (Hd : Zpos (digits2_pos p) <= 53).
  { change (Zpos (digits2_pos p)) with (Zdigits2 (Zpos p)).
    apply Zdigits2_upper; lia. }
  destruct (binary_round_exact false p 0) as (m & Hm & Hval).
  - rewrite fexp_eq. lia.
  - change (emax - prec) with 971. lia.
  - exists m, (fexp prec emax (Zpos (digits2_pos p) + 0)).
    split; [exact Hm |]. split; [rewrite fexp_eq; lia |].
    rewrite Hval. f_equal.
Qed.

End Binary64.

(** ** Primitive floats through their specification *)

Module FloatFacts.
Import Binary64Defs Binary64.

Lemma Prim2SF_zero : Prim2SF 0%float = S754_zero false.
Proof. reflexivity. Qed.

Lemma Prim2SF_nan : Prim2SF nan = S754_nan.
Proof. reflexivity. Qed.

Lemma Prim2SF_infinity : Prim2SF infinity = S754_infinity false.
Proof. reflexivity. Qed.

Lemma SFcompare_refl_finite s m e :
  SFcompare (S754_finite s m e) (S754_finite s m e) = Some Eq.
Proof.
  unfold SFcompare. rewrite Z.compare_refl.
  change (Pos.compare_cont Eq m m) with (Pos.compare m m).
  rewrite Pos.compare_refl. destruct s; reflexivity.
Qed.

(** [is_finite] holds of zeros and finite numbers only. *)
Lemma is_finite_spec (x : float) :
  is_finite x =
    match Prim2SF x with
    | S754_zero _ | S754_finite _ _ _ => true
    | _ => false
    end.
Proof.
  unfold is_finite, is_nan, is_infinity.
  rewrite !FloatAxioms.eqb_spec, FloatAxioms.abs_spec, Prim2SF_infinity.
  destruct (Prim2SF x) as [s | s | | s m e]; try reflexivity.
  - destruct s; reflexivity.
  - unfold SFeqb at 1. rewrite SFcompare_refl_finite. reflexivity.
Qed.

(** [x - x] is [+0] for a finite [x] and [NaN] otherwise. *)
Lemma sub_diag (x : float) :
  (x - x)%float = if is_finite x then 0%float else nan.
Proof.
  rewrite is_finite_spec.
  apply Prim2SF_inj. rewrite FloatAxioms.sub_spec.
  destruct (Prim2SF x) as [s | s | | s m e]; unfold SF64sub, SFsub.
  - destruct s; reflexivity.
  - destruct s; reflexivity.
  - reflexivity.
  - rewrite Z.sub_diag. reflexivity.
Qed.

End FloatFacts.

(** ** Array reads and loops *)

Lemma at_index_middle (pre rest : list float) (y : float) :
  at_index (pre ++ y :: rest) (Z.of_nat (length pre)) = Some y.
Proof.
  unfold at_index.
  destruct (Z.ltb_spec (Z.of_nat (length pre)) 0) as [Hneg | _]; [lia |].
  rewrite Nat2Z.id. apply list_lookup_middle. reflexivity.
Qed.

(** ** Exponential moving average and MACD *)

Module KernelFacts.
Import Kernel FloatFacts.

(** The loop of [calculateEMA] over the samples that follow [pre] is a
    left fold of the recurrence. *)
Lemma ema_loop_fold (multiplier : float) (rest : list float) :
  forall (pre : list float) (ema : float),
    for_loop (Z.of_nat (length pre)) (length rest)
      (ema_step (pre ++ rest) multiplier) (Some ema) =
    Some (fold_left (fun ema p => ((p - ema) * multiplier + ema)%float) rest ema).
Proof.
  induction rest as [| y rest IH]; intros pre ema.
  - reflexivity.
  - cbn [length for_loop fold_left].
    unfold ema_step at 2. rewrite at_index_middle. cbn [to_number].
    replace (pre ++ y :: rest) with ((pre ++ [y]) ++ rest)
      by (rewrite <- app_assoc; reflexivity).
    replace (Z.of_nat (length pre) + 1) with (Z.of_nat (length (pre ++ [y])))
      by (rewrite length_app; simpl; lia).
    apply IH.
Qed.

Lemma calculateEMA_cons (x : float) (ys : list float) (period : float) :
  calculateEMA (x :: ys) period =
    Some (fold_left
            (fun ema p => ((p - ema) * (2 / (period + 1)) + ema)%float) ys x).
Proof.
  unfold calculateEMA.
  change (at_index (x :: ys) 0) with (Some x).
  replace (length (x :: ys) - 1)%nat with (length ys) by (simpl; lia).
  apply (ema_loop_fold (2 / (period + 1))%float ys [x] x).
Qed.

(** C6: [calculateEMA] starts from the first sample and applies
    [ema <- (p - ema) * (2 / (period + 1)) + ema] to every later sample
    [p] of the whole sequence, in order; on a one-element sequence it
    returns that element, whatever the period. *)
Theorem calculateEMA_recurrence (x : float) (xs : list float) (period : float) :
  Kernel.calculateEMA (x :: xs) period =
    Some (fold_left
            (fun ema p => ((p - ema) * (2 / (period + 1)) + ema)%float) xs x)
  /\ Kernel.calculateEMA [x] period = Some x.
Proof.
  split.
  - apply calculateEMA_cons.
  - rewrite calculateEMA_cons. reflexivity.
Qed.

(** C5, as the code has it: the signal line is the MACD line itself, and
    the histogram is [+0] when the MACD line is finite and [NaN] when it
    is [NaN] or infinite. *)
Theorem calculateMACD_signal_histogram (prices : list float) :
  signalLine (Kernel.calculateMACD prices) = Some (macdLine (Kernel.calculateMACD prices))
  /\ histogram (Kernel.calculateMACD prices) =
       if is_finite (macdLine (Kernel.calculateMACD prices)) then 0%float else nan.
Proof.
  unfold calculateMACD. cbn [signalLine macdLine histogram].
  set (m := (to_number (calculateEMA prices 12) - to_number (calculateEMA prices 26))%float).
  rewrite (calculateEMA_cons m [] 9%float).
  cbn [fold_left to_number]. split; [reflexivity | apply sub_diag].
Qed.

(** C5 fails as stated: finite samples whose difference overflows give a
    [NaN] MACD line, and the histogram is then [NaN], not [0]. *)
Lemma calculateMACD_histogram_not_zero :
  histogram (Kernel.calculateMACD
               [0x1.fffffffffffffp+1023; -0x1.fffffffffffffp+1023]%float) = nan
  /\ histogram (Kernel.calculateMACD
               [0x1.fffffffffffffp+1023; -0x1.fffffffffffffp+1023]%float) <> 0%float.
Proof.
  assert (E : histogram (calculateMACD
             [0x1.fffffffffffffp+1023; -0x1.fffffffffffffp+1023]%float) = nan)
    by (vm_compute; reflexivity).
  split; [exact E |].
  rewrite E. intros H. apply (f_equal Prim2SF) in H.
  rewrite Prim2SF_nan, Prim2SF_zero in H. discriminate H.
Qed.

End KernelFacts.

(** ** Relative strength index *)

Module RSIFacts.
Import Kernel Binary64Defs Binary64 FloatFacts.

(** A period below [2^53] is a Number with exactly that value. *)
Lemma number_of_nat_spec (n : nat) :
  (1 <= n)%nat -> Z.of_nat n < 2 ^ 53 ->
  exists m e, Prim2SF (number_of_nat n) = S754_finite false m e /\
              e <= 0 /\ Zpos m = Z.of_nat n * 2 ^ (- e).
Proof.
  intros H1 H2. unfold number_of_nat.
  rewrite of_uint63_spec, Uint63.of_Z_spec.
  rewrite Z.mod_small.
  - apply binary_normalize_small. lia.
  - split; [lia |].
    apply Z.lt_trans with (2 ^ 53); [exact H2 | reflexivity].
Qed.

Lemma leb_zero_positive (d : float) :
  positive_float (Prim2SF d) -> (0 <=? d)%float = true.
Proof.
  intros Hd. rewrite FloatAxioms.leb_spec, Prim2SF_zero.
  destruct Hd as [-> | (m & e & ->)]; reflexivity.
Qed.

(** A rising step yields a positive difference. *)
Lemma difference_positive (prev cur : float) :
  (prev <? cur)%float = true -> positive_float (Prim2SF (cur - prev)%float).
Proof.
  intros Hlt. rewrite FloatAxioms.ltb_spec in Hlt. rewrite FloatAxioms.sub_spec.
  apply SFsub_lt_pos; [apply Prim2SF_valid | apply Prim2SF_valid | exact Hlt].
Qed.

(** Adding a positive difference to the gains of [k] rising steps gives
    the gains of [k + 1] rising steps. *)
Lemma rising_gains_add (k : Z) (gains d : float) :
  rising_gains k gains -> k + 1 <= 2 ^ 53 ->
  positive_float (Prim2SF d) ->
  rising_gains (k + 1) (gains + d)%float.
Proof.
  intros Hg Hk Hd. right.
  assert (Hk0 : 0 <= k) by (destruct Hg as [[-> _] | [H _]]; lia).
  split; [lia |].
  pose proof (Prim2SF_valid d) as Vd.
  pose proof (Prim2SF_valid gains) as Vg.
  pose proof (Prim2SF_valid (gains + d)%float) as Vr.
  rewrite FloatAxioms.add_spec in *.
  destruct Hg as [[-> ->] | [Hkp Hg]].
  - rewrite Prim2SF_zero in *.
    destruct Hd as [-> | (m & e & Hd)]; [left; reflexivity |].
    rewrite Hd in *.
    change (SF64add (S754_zero false) (S754_finite false m e))
      with (S754_finite false m e).
    right. exists m, e. split; [reflexivity |].
    pose proof (units_pos _ _ _ Vd). lia.
  - destruct Hg as [Hg | (mg & eg & Hg & Hu)];
      destruct Hd as [Hd | (m & e & Hd)]; rewrite Hg, Hd in *.
    + left. reflexivity.
    + left. reflexivity.
    + left. reflexivity.
    + destruct (SFadd_pos_units mg eg m e Vg Vd Vr) as [H | (mr & er & H & Hr)];
        [left; exact H |].
      right. exists mr, er. split; [exact H |].
      rewrite H.
      pose proof (units_pos _ _ _ Vd). lia.
Qed.

(** The loop of [calculateRSI] over a rising window: losses stay [0] and
    the gains grow by at least one unit per step. *)
Lemma rsi_loop_rising (prices : list float) (count : nat) :
  forall (i k : Z) (gains : float),
    forallb
      (fun i => (to_number (at_index prices (i - 1)) <? to_number (at_index prices i))%float)
      (loop_indices i count) = true ->
    rising_gains k gains -> k + Z.of_nat count <= 2 ^ 53 ->
    exists gains',
      for_loop i count (rsi_step prices) (gains, 0%float) = (gains', 0%float)
      /\ rising_gains (k + Z.of_nat count) gains'.
Proof.
  induction count as [| count IH]; intros i k gains Hw Hg Hk.
  - exists gains. split; [reflexivity |].
    replace (k + Z.of_nat 0) with k by lia. exact Hg.
  - cbn [loop_indices forallb] in Hw. apply andb_true_iff in Hw as [Hi Hw].
    cbn [for_loop]. unfold rsi_step at 2.
    pose proof (difference_positive _ _ Hi) as Hd.
    rewrite (leb_zero_positive _ Hd).
    destruct (IH (i + 1) (k + 1) _ Hw (rising_gains_add k gains _ Hg ltac:(lia) Hd))
      as (gains' & Hloop & Hinv); [lia |].
    exists gains'. split; [exact Hloop |].
    replace (k + Z.of_nat (S count)) with (k + 1 + Z.of_nat count) by lia.
    exact Hinv.
Qed.

(** Gains worth at least [period] units divided by [period] are still
    positive. *)
Lemma average_gain_positive (gains : float) (period : nat) :
  (1 <= period)%nat -> Z.of_nat period < 2 ^ 53 ->
  at_least (Z.of_nat period) (Prim2SF gains) ->
  positive_float (Prim2SF (gains / number_of_nat period)%float).
Proof.
  intros H1 H2 Hg.
  destruct (number_of_nat_spec period H1 H2) as (mp & ep & HP & Hep & Hmp).
  pose proof (Prim2SF_valid gains) as Vg.
  pose proof (Prim2SF_valid (number_of_nat period)) as Vp.
  rewrite FloatAxioms.div_spec, HP. rewrite HP in Vp.
  destruct Hg as [-> | (m & e & Hg & Hu)]; [left; reflexivity |].
  rewrite Hg in *.
  apply SFdiv_pos_nonzero; try assumption.
  pose proof (valid_finite _ _ _ Vg) as [Hc _].
  cbn [units] in Hu. rewrite Hmp.
  replace (e + 1074 - ep) with ((e + 1074) + (- ep)) by lia.
  rewrite Z.pow_add_r by lia.
  assert (0 < 2 ^ (- ep)) by (apply Z.pow_pos_nonneg; lia).
  nia.
Qed.

Lemma zero_div_period (period : nat) :
  (1 <= period)%nat -> Z.of_nat period < 2 ^ 53 ->
  (0 / number_of_nat period)%float = 0%float.
Proof.
  intros H1 H2.
  destruct (number_of_nat_spec period H1 H2) as (mp & ep & HP & _).
  apply Prim2SF_inj. rewrite FloatAxioms.div_spec, HP. reflexivity.
Qed.

Lemma positive_div_zero (a : float) :
  positive_float (Prim2SF a) -> (a / 0)%float = infinity.
Proof.
  intros Ha. apply Prim2SF_inj. rewrite FloatAxioms.div_spec, Prim2SF_zero.
  destruct Ha as [-> | (m & e & ->)]; reflexivity.
Qed.

(** C7: for a period of at least 1 and a sequence of at least
    [period + 1] samples whose last [period + 1] samples rise strictly,
    [calculateRSI] returns exactly 100: no loss is recorded, the average
    gain is positive, RS is [+Infinity] and [100 - 100 / (1 + RS)] is 100.
    The period is a count that a Number holds exactly, as is every
    period that fits an array of JavaScript, whose length is below
    [2^32]. *)
Theorem calculateRSI_rising (prices : list float) (period : nat) :
  (1 <= period)%nat -> (period + 1 <= length prices)%nat ->
  Z.of_nat period < 2 ^ 53 ->
  Kernel.rising_window prices period = true ->
  Kernel.calculateRSI prices period = 100%float.
Proof.
  intros H1 Hlen H2 Hw. unfold rising_window in Hw. unfold calculateRSI.
  destruct (rsi_loop_rising prices period _ 0 0%float Hw) as (gains & Hloop & Hinv).
  - left. split; reflexivity.
  - lia.
  - rewrite Hloop.
    destruct Hinv as [[H0 _] | [_ Hg]]; [lia |].
    rewrite Z.add_0_l in Hg.
    pose proof (average_gain_positive gains period H1 H2 Hg) as Hpos.
    rewrite (zero_div_period period H1 H2).
    rewrite (positive_div_zero _ Hpos).
    reflexivity.
Qed.

(** A rising window of three steps. *)
Lemma calculateRSI_rising_witness :
  Kernel.calculateRSI [1; 2; 4; 7]%float 3 = 100%float.
Proof.
  apply calculateRSI_rising.
  - lia.
  - simpl. lia.
  - reflexivity.
  - reflexivity.
Defined.


(** Two samples that compare equal differ by a zero, or by [NaN] when
    both are the same infinity. *)
Lemma SFsub_eqb (a b : spec_float) :
  SFeqb a b = true ->
  (exists s, SF64sub b a = S754_zero s) \/ SF64sub b a = S754_nan.
Proof.
  intros Heq. unfold SFeqb in Heq.
  destruct a as [sa | sa | | sa ma ea], b as [sb | sb | | sb mb eb];
    try (destruct sa); try (destruct sb);
    try discriminate Heq;
    try (left; eexists; reflexivity); try (right; reflexivity).
  all: left; exists false.
  all: unfold SFcompare in Heq.
  all: change (Pos.compare_cont Eq ma mb) with (Pos.compare ma mb) in Heq.
  all: destruct (Z.compare_spec ea eb); try discriminate Heq.
  all: destruct (Pos.compare_spec ma mb); try discriminate Heq.
  all: subst; unfold SF64sub, SFsub; rewrite Z.sub_diag; reflexivity.
Qed.

(** One step of the loop over a flat window. *)
Lemma rsi_step_flat (prices : list float) (i : Z) (acc : float * float) :
  (to_number (at_index prices (i - 1)) =? to_number (at_index prices i))%float = true ->
  flat_acc acc -> flat_acc (rsi_step prices i acc).
Proof.
  intros Heq [Hg Hl]. destruct acc as [gains losses]. cbn [fst snd] in Hg, Hl.
  subst gains. unfold rsi_step.
  set (d := (to_number (at_index prices i) - to_number (at_index prices (i - 1)))%float).
  rewrite FloatAxioms.eqb_spec in Heq.
  pose proof (SFsub_eqb _ _ Heq) as Hd.
  rewrite <- FloatAxioms.sub_spec in Hd. fold d in Hd.
  rewrite FloatAxioms.leb_spec, Prim2SF_zero.
  destruct Hd as [[s Hd] | Hd]; rewrite Hd; cbn [SFleb SFcompare].
  - split; cbn [fst snd]; [| exact Hl].
    apply Prim2SF_inj. rewrite FloatAxioms.add_spec, Hd, Prim2SF_zero.
    destruct s; reflexivity.
  - split; cbn [fst snd]; [reflexivity |]. right.
    apply Prim2SF_inj. rewrite FloatAxioms.sub_spec, Hd.
    destruct (Prim2SF losses); reflexivity.
Qed.

Lemma rsi_loop_flat (prices : list float) (count : nat) :
  forall (i : Z) (acc : float * float),
    forallb
      (fun i => (to_number (at_index prices (i - 1)) =? to_number (at_index prices i))%float)
      (loop_indices i count) = true ->
    flat_acc acc -> flat_acc (for_loop i count (rsi_step prices) acc).
Proof.
  induction count as [| count IH]; intros i acc Hw Hacc.
  - exact Hacc.
  - cbn [loop_indices forallb] in Hw. apply andb_true_iff in Hw as [Hi Hw].
    cbn [for_loop]. apply IH; [exact Hw |].
    apply rsi_step_flat; assumption.
Qed.

(** Zero or [NaN] divided by any Number is a zero or [NaN]. *)
Lemma zero_or_nan_div (x p : float) :
  x = 0%float \/ x = nan ->
  (exists s, Prim2SF (x / p)%float = S754_zero s) \/ Prim2SF (x / p)%float = S754_nan.
Proof.
  intros Hx. rewrite FloatAxioms.div_spec.
  destruct Hx as [-> | ->]; [rewrite Prim2SF_zero | rewrite Prim2SF_nan].
  - destruct (Prim2SF p) as [s | s | | s m e]; cbn [SF64div SFdiv];
      try (right; reflexivity); left; eexists; reflexivity.
  - right. reflexivity.
Qed.

(** C10: for a period of at least 1 and a sequence of at least
    [period + 1] samples whose last [period + 1] samples are all equal,
    [calculateRSI] returns [NaN]: gains and losses are both zero, so RS
    is [0 / 0]. *)
Theorem calculateRSI_flat (prices : list float) (period : nat) :
  (1 <= period)%nat -> (period + 1 <= length prices)%nat ->
  Kernel.flat_window prices period = true ->
  Kernel.calculateRSI prices period = nan.
Proof.
  intros _ _ Hw. unfold flat_window in Hw. unfold calculateRSI.
  pose proof (rsi_loop_flat prices period _ (0%float, 0%float) Hw) as Hacc.
  destruct (for_loop _ period (rsi_step prices) (0%float, 0%float)) as [gains losses].
  destruct Hacc as [Hg Hl]; [split; [reflexivity | left; reflexivity] |].
  cbn [fst snd] in Hg, Hl.
  pose proof (zero_or_nan_div gains (number_of_nat period) (or_introl Hg)) as Ha.
  pose proof (zero_or_nan_div losses (number_of_nat period) Hl) as Hb.
  set (avgGain := (gains / number_of_nat period)%float) in *.
  set (avgLoss := (losses / number_of_nat period)%float) in *.
  assert (Hrs : (avgGain / avgLoss)%float = nan).
  { apply Prim2SF_inj. rewrite FloatAxioms.div_spec.
    destruct Ha as [[sa ->] | ->], Hb as [[sb ->] | ->]; reflexivity. }
  rewrite Hrs. reflexivity.
Qed.

(** A flat window of three steps after an unrelated first sample. *)
Lemma calculateRSI_flat_witness :
  Kernel.calculateRSI [1; 5; 5; 5; 5]%float 3 = nan.
Proof.
  apply calculateRSI_flat.
  - lia.
  - simpl. lia.
  - reflexivity.
Defined.

End RSIFacts.

(** ** Trend signal *)

Module TrendFacts.
Import Kernel.

(** C8: [determineTrend] returns the comma-joined labels of the rules
    RSI > 70: "Overbought", else RSI < 30: "Oversold"; MACD line above
    the signal line: "Bullish MACD Crossover", else below it: "Bearish
    MACD Crossover"; "Neutral" when no rule fires; and the [sma] argument
    has no influence on the result. *)
Theorem determineTrend_labels {A B : Type} (sma : A) (sma' : B)
    (rsi : float) (m : macd) :
  Kernel.determineTrend sma rsi m = Kernel.TrendSignal_spec rsi m
  /\ Kernel.determineTrend sma rsi m = Kernel.determineTrend sma' rsi m.
Proof.
  split; [| reflexivity].
  unfold determineTrend, TrendSignal_spec, rsi_label, macd_label, push, string_or.
  destruct (70 <? rsi)%float, (rsi <? 30)%float,
    (to_number (signalLine m) <? macdLine m)%float,
    (macdLine m <? to_number (signalLine m))%float; reflexivity.
Qed.

(** The two examples of the specification. *)
Example determineTrend_overbought_bullish :
  Kernel.determineTrend tt 80%float
    {| macdLine := 1%float; signalLine := Some 0%float; histogram := 1%float |}
  = "Overbought, Bullish MACD Crossover".
Proof. vm_compute. reflexivity. Qed.

Example determineTrend_neutral :
  Kernel.determineTrend tt 50%float
    {| macdLine := 0%float; signalLine := Some 0%float; histogram := 0%float |}
  = "Neutral".
Proof. vm_compute. reflexivity. Qed.

End TrendFacts.

(** ** Named time windows *)

Module WindowFacts.

Lemma literal_table (t : gmap string float) (name : string) :
  t = {[ "1d" := (24 * 60 * 60 * 1000)%float;
         "7d" := (7 * 24 * 60 * 60 * 1000)%float;
         "30d" := (30 * 24 * 60 * 60 * 1000)%float;
         "1y" := (365 * 24 * 60 * 60 * 1000)%float ]} ->
  t !! name = named_window_ms name.
Proof.
  intros ->. unfold named_window_ms.
  destruct (String.eqb_spec name "1d") as [-> | H1]; [vm_compute; reflexivity |].
  destruct (String.eqb_spec name "7d") as [-> | H2]; [vm_compute; reflexivity |].
  destruct (String.eqb_spec name "30d") as [-> | H3]; [vm_compute; reflexivity |].
  destruct (String.eqb_spec name "1y") as [-> | H4]; [vm_compute; reflexivity |].
  rewrite !lookup_insert_ne by congruence.
  apply lookup_singleton_ne. congruence.
Qed.

(** A read at a name that the table does not hold itself gives no
    Number, and the start of the window is [NaN]: the read raises
    nothing by itself. *)
Lemma window_start_no_entry (table : gmap string float) (now : float)
    (name : string) :
  table !! name = None -> window_start table now name = nan.
Proof.
  intros Hn. unfold window_start, get. rewrite Hn.
  assert (E : forall p, p = Inherited name \/ p = Undefined ->
                        (now - property_to_number p)%float = nan).
  { intros p [-> | ->]; cbn [property_to_number]; apply Prim2SF_inj;
      rewrite FloatAxioms.sub_spec; change (Prim2SF nan) with S754_nan;
      destruct (Prim2SF now); reflexivity. }
  apply E. destruct (existsb (String.eqb name) Object_prototype); auto.
Qed.

Lemma window_start_unknown (now : float) (name : string) :
  named_window_ms name = None ->
  window_start TIME_PERIODS now name = nan.
Proof.
  intros Hn. apply window_start_no_entry.
  rewrite (literal_table TIME_PERIODS name eq_refl). exact Hn.
Qed.

Lemma inherited_name (name : string) :
  existsb (String.eqb name) Object_prototype = true <-> In name Object_prototype.
Proof.
  rewrite existsb_exists. split.
  - intros (y & Hy & E). apply String.eqb_eq in E. subst y. exact Hy.
  - intros H. exists name. split; [exact H | apply String.eqb_refl].
Qed.

(** C9, as the code has it: the table of named windows holds four
    entries of its own, "1d" with 86,400,000 ms, "7d" with
    604,800,000 ms, "30d" with 2,592,000,000 ms and "1y" with
    31,536,000,000 ms, and none for any other name; this holds of the
    module's table and of the copy in [context], and a read gives the
    same in both.  A read at one of the four names gives its duration.
    A read at another name gives [undefined] exactly when the name is
    not one that every object inherits from [Object.prototype]; at an
    inherited name it gives the inherited function or object; either
    way the start of the window computed from it is [NaN]. *)
Theorem TIME_PERIODS_named_windows (name : string) :
  (TIME_PERIODS !! name = named_window_ms name
   /\ context_TIME_PERIODS !! name = named_window_ms name)
  /\ get TIME_PERIODS name = get context_TIME_PERIODS name
  /\ match named_window_ms name with
     | Some ms => get TIME_PERIODS name = Duration ms
     | None =>
         (get TIME_PERIODS name = Undefined <-> ~ In name Object_prototype)
         /\ (In name Object_prototype -> get TIME_PERIODS name = Inherited name)
         /\ (forall now, window_start TIME_PERIODS now name = nan)
         /\ (forall now, window_start context_TIME_PERIODS now name = nan)
     end.
Proof.
  pose proof (literal_table TIME_PERIODS name eq_refl) as Hm.
  pose proof (literal_table context_TIME_PERIODS name eq_refl) as Hc.
  split; [split; assumption |].
  split; [unfold get; rewrite Hm, Hc; reflexivity |].
  destruct (named_window_ms name) as [ms |] eqn:Hn.
  - unfold get. rewrite Hm. reflexivity.
  - assert (Hg : get TIME_PERIODS name =
                 if existsb (String.eqb name) Object_prototype
                 then Inherited name else Undefined)
      by (unfold get; rewrite Hm; reflexivity).
    pose proof (inherited_name name) as Hi.
    split; [| split; [| split]].
    + rewrite Hg. destruct (existsb (String.eqb name) Object_prototype).
      * split; [discriminate |]. intros H. exfalso. apply H, Hi. reflexivity.
      * split; [| reflexivity]. intros _ H. apply Hi in H. discriminate H.
    + intros H. apply Hi in H. rewrite Hg, H. reflexivity.
    + intros now. apply window_start_no_entry. exact Hm.
    + intros now. apply window_start_no_entry. exact Hc.
Qed.

(** C9 fails as stated: "constructor" is not a window name, yet a read
    of the table at it gives a defined value, the function that
    [Object.prototype] holds, not [undefined]. *)
Lemma TIME_PERIODS_constructor :
  named_window_ms "constructor" = None
  /\ get TIME_PERIODS "constructor" = Inherited "constructor"
  /\ get context_TIME_PERIODS "constructor" = Inherited "constructor"
  /\ get TIME_PERIODS "constructor" <> Undefined.
Proof.
  assert (E : get TIME_PERIODS "constructor" = Inherited "constructor")
    by (vm_compute; reflexivity).
  split; [reflexivity |]. split; [exact E |].
  split; [vm_compute; reflexivity |]. rewrite E. discriminate.
Qed.

End WindowFacts.

(** ** Formatters *)

Module FormatterFacts.

(** C3 on the code: when the field is absent, the module-level
    formatters of lines 272-355 attach their "$" or "%" to the
    sentinel. *)
Theorem formatters_absent_field (coins : list coin)
    (toFixed2 : float -> string) (token : string) :
  Formatter.marketCapDiluted (fun _ => Some MarketData.no_fields) coins toFixed2 token = "$N/A"
  /\ Formatter.liquidity (fun _ => Some MarketData.no_fields) coins toFixed2 token = "$N/A"
  /\ Formatter.ath (fun _ => Some MarketData.no_fields) coins toFixed2 token = "$N/A"
  /\ Formatter.volumeChange24h (fun _ => Some MarketData.no_fields) coins toFixed2 token = "N/A%"
  /\ Formatter.priceChange24h (fun _ => Some MarketData.no_fields) coins toFixed2 token = "N/A%".
Proof.
  repeat split; reflexivity.
Qed.

(** The same holds when the provider returns no data at all. *)
Lemma formatters_no_data (coins : list coin)
    (toFixed2 : float -> string) (token : string) :
  Formatter.marketCapDiluted (fun _ => None) coins toFixed2 token = "$N/A"
  /\ Formatter.volumeChange24h (fun _ => None) coins toFixed2 token = "N/A%".
Proof.
  split; reflexivity.
Qed.

(** The sibling paths return the bare sentinel: the capabilities of the
    same names in [context], and the module-level [price], [volume],
    [marketCap] and [liquidityChange24h]. *)
Lemma context_formatters_absent_field (coins : list coin)
    (toFixed2 : float -> string) (token : string) :
  ContextFormatter.marketCapDiluted (fun _ => Some MarketData.no_fields) toFixed2 token = "N/A"
  /\ ContextFormatter.liquidity (fun _ => Some MarketData.no_fields) toFixed2 token = "N/A"
  /\ ContextFormatter.ath (fun _ => Some MarketData.no_fields) toFixed2 token = "N/A"
  /\ ContextFormatter.volumeChange24h (fun _ => Some MarketData.no_fields) toFixed2 token = "N/A"
  /\ ContextFormatter.priceChange24h (fun _ => Some MarketData.no_fields) toFixed2 token = "N/A"
  /\ Formatter.price (fun _ => Some MarketData.no_fields) coins toFixed2 token = "N/A"
  /\ Formatter.liquidityChange24h (fun _ => Some MarketData.no_fields) coins toFixed2 token = "N/A".
Proof.
  repeat split; reflexivity.
Qed.

End FormatterFacts.

(** ** Execution engine *)

Module EngineFacts.

(** *** Normalizing *)

Lemma after_prefix_app (marker rest : string) :
  after_prefix marker (marker +:+ rest) = Some rest.
Proof.
  induction marker as [| a marker IH]; [reflexivity |].
  change (after_prefix (String a marker) (String a (marker +:+ rest)) = Some rest).
  cbn [after_prefix]. rewrite Ascii.eqb_refl. exact IH.
Qed.

Lemma after_prefix_some (marker : string) :
  forall s rest, after_prefix marker s = Some rest -> s = marker +:+ rest.
Proof.
  induction marker as [| a marker IH]; intros s rest H.
  - injection H as <-. reflexivity.
  - destruct s as [| c s]; [discriminate |]. cbn [after_prefix] in H.
    destruct (Ascii.eqb_spec a c) as [-> |]; [| discriminate].
    change (String c s = String c (marker +:+ rest)). f_equal. apply IH. exact H.
Qed.

Lemma replace_first_unfold (marker s : string) :
  replace_first marker s =
    match after_prefix marker s with
    | Some rest => skip_newline rest
    | None =>
        match s with
        | EmptyString => EmptyString
        | String c s' => String c (replace_first marker s')
        end
    end.
Proof. destruct s; reflexivity. Qed.

(** The marker is removed where it first occurs, with the line feed
    that follows it. *)
Lemma replace_first_at (marker : string) (pre : string) :
  forall s post, first_occurrence marker s pre post ->
                 replace_first marker s = pre +:+ skip_newline post.
Proof.
  induction pre as [| c pre IH]; intros s post [Hs Hmin].
  - rewrite replace_first_unfold. subst s.
    change (EmptyString +:+ marker +:+ post) with (marker +:+ post).
    rewrite after_prefix_app. reflexivity.
  - rewrite replace_first_unfold.
    destruct (after_prefix marker s) as [rest |] eqn:E.
    + apply after_prefix_some in E.
      specialize (Hmin EmptyString rest E). cbn in Hmin. lia.
    + subst s. change (String c pre +:+ marker +:+ post)
        with (String c (pre +:+ marker +:+ post)).
      change (String c pre +:+ skip_newline post)
        with (String c (pre +:+ skip_newline post)).
      f_equal. apply IH. split; [reflexivity |].
      intros p q Hpq.
      specialize (Hmin (String c p) q).
      cbn [String.length] in Hmin.
      assert (String c (pre +:+ marker +:+ post) = String c p +:+ marker +:+ q)
        by (rewrite Hpq; reflexivity).
      apply Hmin in H. lia.
Qed.

(** Text in which the marker does not occur is left as it is. *)
Lemma replace_first_absent (marker : string) :
  forall s, ~ occurs marker s -> replace_first marker s = s.
Proof.
  induction s as [| c s IH]; intros Hs; rewrite replace_first_unfold.
  - destruct (after_prefix marker EmptyString) as [rest |] eqn:E; [| reflexivity].
    exfalso. apply Hs. exists EmptyString, rest.
    apply after_prefix_some in E. exact E.
  - destruct (after_prefix marker (String c s)) as [rest |] eqn:E.
    + exfalso. apply Hs. exists EmptyString, rest.
      apply after_prefix_some in E. exact E.
    + f_equal. apply IH. intros (pre & post & Heq).
      apply Hs. exists (String c pre), post. rewrite Heq. reflexivity.
Qed.

Lemma occurs_javascript_fence (s : string) :
  occurs "```javascript" s -> occurs "```" s.
Proof.
  intros (pre & post & ->). exists pre, ("javascript" +:+ post). reflexivity.
Qed.

(** C4, as the code has it: Normalizing removes the marker
    [```javascript] and then the marker [```], each with a line feed
    that follows it directly, where the marker first occurs in the
    string, be it at an edge or inside, and trims surrounding white
    space; text without a fence marker is only trimmed; the snippet
    [return 1+1;] wrapped in a javascript fence normalizes to
    [return 1+1;] and executes to the success value 2, as does every
    string that normalizes to [return 1+1;]. *)
Theorem cleanCode_first_occurrence :
  (forall code, cleanCode code =
     trim (replace_first "```" (replace_first "```javascript" code)))
  /\ (forall marker s pre post,
        first_occurrence marker s pre post ->
        replace_first marker s = pre +:+ skip_newline post)
  /\ (forall marker s, ~ occurs marker s -> replace_first marker s = s)
  /\ (forall code, ~ occurs "```" code -> cleanCode code = trim code)
  /\ cleanCode ("```javascript" +:+ newline +:+ "return 1+1;" +:+ newline +:+ "```")
     = "return 1+1;"
  /\ fst (executeCode (MiniJS.engine MiniJS.standard_globals)
            ("```javascript" +:+ newline +:+ "return 1+1;" +:+ newline +:+ "```"))
     = Returns (VNumber 2%float)
  /\ (forall code, cleanCode code = "return 1+1;" ->
        fst (executeCode (MiniJS.engine MiniJS.standard_globals) code)
        = Returns (VNumber 2%float)).
Proof.
  split; [reflexivity |].
  split; [intros marker s pre post; apply replace_first_at |].
  split; [intros marker s; apply replace_first_absent |].
  split; [| split; [vm_compute; reflexivity | split; [vm_compute; reflexivity |]]].
  - intros code Hno. unfold cleanCode.
    rewrite (replace_first_absent "```javascript" code).
    + rewrite (replace_first_absent "```" code Hno). reflexivity.
    + intros H. apply Hno. apply occurs_javascript_fence. exact H.
  - intros code Hc. unfold executeCode. rewrite Hc. vm_compute. reflexivity.
Qed.

(** C4 fails as stated: a fence marker inside the text, here inside a
    string literal of the snippet, is removed. *)
Lemma cleanCode_changes_interior :
  cleanCode "return '```';" = "return '';"
  /\ cleanCode "return '```';" <> trim "return '```';".
Proof.
  assert (E : cleanCode "return '```';" = "return '';") by (vm_compute; reflexivity).
  split; [exact E |]. rewrite E. vm_compute. discriminate.
Qed.

(** A snippet wrapped in a fence without the language tag keeps the
    closing marker. *)
Example cleanCode_plain_fence :
  cleanCode ("```" +:+ newline +:+ "return 1+1;" +:+ newline +:+ "```")
  = "return 1+1;" +:+ newline +:+ "```".
Proof. vm_compute. reflexivity. Qed.

(** *** Failures *)

(** C1, as the code has it: whatever is thrown while compiling or
    running is logged and an error is thrown to the caller, so nothing
    is returned: for a thrown [Error] object a new [Error] whose
    message is "Code execution failed: " followed by the message of the
    original; for a thrown value without a message (a Number, a string,
    a capability or host object) a new [Error] with the message "Code
    execution failed: undefined"; for a thrown [undefined] or [null]
    the [TypeError] that reading its message raises.  When nothing is
    thrown, the value of the callable is returned and nothing is
    logged.  The code is compiled once and run at most once. *)
Theorem executeCode_failure_is_thrown (E : Engine) (code : string) :
  match arising_error E code with
  | Some thrown =>
      In (Logged "Error executing code:" thrown) (snd (executeCode E code))
      /\ ~ returns_to_caller (fst (executeCode E code))
      /\ match thrown with
         | VError e =>
             fst (executeCode E code) =
               Throws (VError {| error_name := "Error";
                                 message := "Code execution failed: " +:+ message e |})
         | VUndefined | VNull =>
             exists text,
               fst (executeCode E code) =
                 Throws (VError {| error_name := "TypeError"; message := text |})
         | VNumber _ | VText | VObject _ =>
             fst (executeCode E code) =
               Throws (VError {| error_name := "Error";
                                 message := "Code execution failed: undefined" |})
         end
  | None =>
      exists fn v,
        compile E context_keys (function_body (cleanCode code)) = inr fn
        /\ call E fn context_values = Returns v
        /\ executeCode E code = (Returns v, [Compiling; Running])
  end
  /\ count_event is_compiling (snd (executeCode E code)) = 1%nat
  /\ (count_event is_running (snd (executeCode E code)) <= 1)%nat.
Proof.
  unfold arising_error, executeCode, returns_to_caller.
  destruct (compile E context_keys (function_body (cleanCode code))) as [e | fn].
  - split; [| split; [reflexivity | cbn; lia]].
    split; [cbn; auto |].
    split; [intros [v Hv]; discriminate Hv | reflexivity].
  - destruct (call E fn context_values) as [v | thrown] eqn:Ec.
    + split; [| split; [reflexivity | cbn; lia]].
      exists fn, v. split; [reflexivity |]. split; [exact Ec | reflexivity].
    + split; [| split; [reflexivity | cbn; lia]].
      split; [cbn; auto |].
      split; [intros [v Hv]; destruct thrown; discriminate Hv |].
      destruct thrown; cbn; try reflexivity; eexists; reflexivity.
Qed.

(** C1 fails as stated: a snippet that names a module-level function is
    compiled and run, and the caller gets a thrown [Error], not a
    value. *)
Lemma executeCode_throws_to_caller :
  fst (executeCode (MiniJS.engine MiniJS.standard_globals) "return calculateRSI;")
  = Throws (VError {| error_name := "Error";
                      message := "Code execution failed: calculateRSI is not defined" |})
  /\ ~ returns_to_caller
       (fst (executeCode (MiniJS.engine MiniJS.standard_globals) "return calculateRSI;")).
Proof.
  assert (E : fst (executeCode (MiniJS.engine MiniJS.standard_globals)
                     "return calculateRSI;")
              = Throws (VError {| error_name := "Error";
                                  message := "Code execution failed: calculateRSI is not defined" |}))
    by (vm_compute; reflexivity).
  split; [exact E |].
  rewrite E. intros [v Hv]. discriminate Hv.
Qed.

(** The example of the specification: the fenced snippet [return 1+1;]
    succeeds with 2. *)
Example executeCode_fenced_sum :
  executeCode (MiniJS.engine MiniJS.standard_globals)
    ("```javascript" +:+ newline +:+ "return 1+1;" +:+ newline +:+ "```")
  = (Returns (VNumber 2%float), [Compiling; Running]).
Proof. vm_compute. reflexivity. Qed.

(** The snippet wrapped in a plain fence does not compile. *)
Example executeCode_plain_fence :
  fst (executeCode (MiniJS.engine MiniJS.standard_globals)
         ("```" +:+ newline +:+ "return 1+1;" +:+ newline +:+ "```"))
  = caught (VError MiniJS.syntax_error).
Proof. vm_compute. reflexivity. Qed.

(** A snippet that throws [null]: the handler fails to read the
    message, and its [TypeError] reaches the caller as it is. *)
Example executeCode_throw_null :
  executeCode (MiniJS.engine MiniJS.standard_globals) "throw null;"
  = (Throws (VError {| error_name := "TypeError";
                       message := "Cannot read properties of null (reading 'message')" |}),
     [Compiling; Running; Logged "Error executing code:" VNull]).
Proof. vm_compute. reflexivity. Qed.

(** *** Name resolution *)

















(** Names under [typeof] and after the [return] are not read. *)
Example executeCode_typeof_unlisted :
  fst (executeCode (MiniJS.engine MiniJS.standard_globals)
         "typeof axios; return 1; openai;")
  = Returns (VNumber 1%float).
Proof. vm_compute. reflexivity. Qed.

(** The registry's [console] hides the one of the global object. *)
Example executeCode_registry_console :
  MiniJS.assoc "console" MiniJS.standard_globals = Some (VObject "globalThis.console")
  /\ fst (executeCode (MiniJS.engine MiniJS.standard_globals) "return console;")
     = Returns (VObject "console").
Proof. split; vm_compute; reflexivity. Qed.

(** No module-level binding of agent.js is in scope of a snippet unless
    the registry lists its name. *)
Lemma module_scope_closed :
  forallb
    (fun x =>
       existsb (String.eqb x) context_keys
       || match MiniJS.resolve MiniJS.standard_globals context_keys context_values x with
          | None => true
          | Some _ => false
          end)
    module_scope = true.
Proof. vm_compute. reflexivity. Qed.

End EngineFacts.

(** ** More of the indicator kernel: windows and edges *)

Module WindowedFacts.
Import Kernel Kernel2 Binary64Defs Binary64 FloatFacts RSIFacts.

Lemma at_index_app (pre w : list float) (j : Z) :
  0 <= j -> at_index (pre ++ w) (j + Z.of_nat (length pre)) = at_index w j.
Proof.
  intros Hj. unfold at_index.
  destruct (Z.ltb_spec (j + Z.of_nat (length pre)) 0); [lia |].
  destruct (Z.ltb_spec j 0); [lia |].
  rewrite lookup_app_r by lia. f_equal. lia.
Qed.

(** Two loops whose bodies agree index by index, up to a shift of the
    index, compute the same state. *)
Lemma for_loop_shift {St : Type} (body1 body2 : Z -> St -> St) (off : Z)
    (count : nat) :
  forall (i : Z) (s : St),
    (forall j s', i <= j < i + Z.of_nat count -> body1 (j + off) s' = body2 j s') ->
    for_loop (i + off) count body1 s = for_loop i count body2 s.
Proof.
  induction count as [| count IH]; intros i s H; [reflexivity |].
  cbn [for_loop]. rewrite (H i s) by lia.
  replace (i + off + 1) with (i + 1 + off) by lia.
  apply IH. intros j s' Hj. apply H. lia.
Qed.

(** [calculateRSI] reads the last [period + 1] samples only: samples
    before them do not change the result. *)
Theorem calculateRSI_window (pre w : list float) (period : nat) :
  (period + 1 <= length w)%nat ->
  Kernel.calculateRSI (pre ++ w) period = Kernel.calculateRSI w period.
Proof.
  intros Hlen. unfold calculateRSI. rewrite length_app.
  replace (Z.of_nat (length pre + length w) - Z.of_nat period)
    with (Z.of_nat (length w) - Z.of_nat period + Z.of_nat (length pre)) by lia.
  rewrite (for_loop_shift (rsi_step (pre ++ w)) (rsi_step w)); [reflexivity |].
  intros j [g l] Hj. unfold rsi_step.
  rewrite at_index_app by lia.
  replace (j + Z.of_nat (length pre) - 1) with (j - 1 + Z.of_nat (length pre)) by lia.
  rewrite at_index_app by lia. reflexivity.
Qed.

Lemma calculateRSI_window_witness :
  Kernel.calculateRSI ([9; 1] ++ [1; 3; 2; 4])%float 3
  = Kernel.calculateRSI [1; 3; 2; 4]%float 3.
Proof.
  apply calculateRSI_window. simpl. lia.
Defined.

(** [calculateSMA] reads the last [period] samples only. *)
Theorem calculateSMA_window (pre w : list float) (period : nat) :
  (1 <= period <= length w)%nat ->
  Kernel2.calculateSMA (pre ++ w) period = Kernel2.calculateSMA w period.
Proof.
  intros [H1 H2]. unfold calculateSMA, slice_last.
  destruct period as [| p]; [lia |].
  rewrite length_app.
  replace (length pre + length w - S p)%nat
    with (length pre + (length w - S p))%nat by lia.
  rewrite drop_app_add. reflexivity.
Qed.

Lemma calculateSMA_window_witness :
  Kernel2.calculateSMA ([100; 7] ++ [1; 2; 3])%float 2
  = Kernel2.calculateSMA [1; 2; 3]%float 2.
Proof.
  apply calculateSMA_window. simpl. lia.
Defined.

Lemma div_zero_not_finite (x : float) : is_finite (x / 0)%float = false.
Proof.
  rewrite is_finite_spec, FloatAxioms.div_spec, Prim2SF_zero.
  destruct (Prim2SF x); reflexivity.
Qed.

(** With a period of 0, [slice(-0)] takes the whole array and the
    division is by zero: [calculateSMA] never returns a finite number,
    and [calculateRSI] returns [NaN], whatever the samples. *)
Theorem period_zero (prices : list float) :
  is_finite (Kernel2.calculateSMA prices 0) = false
  /\ Kernel2.calculateSMA prices 0 = (Kernel2.sum prices / 0)%float
  /\ Kernel.calculateRSI prices 0 = nan.
Proof.
  split; [apply div_zero_not_finite |]. split; reflexivity.
Qed.


(** *** Too few samples *)

Lemma sub_nan_r (x : float) : (x - nan)%float = nan.
Proof.
  apply Prim2SF_inj. rewrite FloatAxioms.sub_spec, Prim2SF_nan.
  destruct (Prim2SF x); reflexivity.
Qed.

Lemma sub_nan_l (x : float) : (nan - x)%float = nan.
Proof.
  apply Prim2SF_inj. rewrite FloatAxioms.sub_spec, Prim2SF_nan. reflexivity.
Qed.

Lemma div_nan_r (x : float) : (x / nan)%float = nan.
Proof.
  apply Prim2SF_inj. rewrite FloatAxioms.div_spec, Prim2SF_nan.
  destruct (Prim2SF x); reflexivity.
Qed.

(** Once the losses are [NaN] they stay [NaN]. *)
Lemma rsi_loop_nan (prices : list float) (count : nat) :
  forall (i : Z) (gains : float),
    exists gains',
      for_loop i count (rsi_step prices) (gains, nan) = (gains', nan).
Proof.
  induction count as [| count IH]; intros i gains.
  - exists gains. reflexivity.
  - cbn [for_loop]. unfold rsi_step at 2.
    destruct (0 <=? _)%float; [apply IH | rewrite sub_nan_l; apply IH].
Qed.

(** With no more samples than the period, the first step reads
    [prices[-1]] or an earlier index, which is [undefined]: the losses
    become [NaN] and [calculateRSI] returns [NaN]. *)
Theorem calculateRSI_too_few (prices : list float) (period : nat) :
  (1 <= period)%nat -> (length prices <= period)%nat ->
  Kernel.calculateRSI prices period = nan.
Proof.
  intros H1 Hlen. unfold calculateRSI.
  destruct period as [| p]; [lia |].
  cbn [for_loop]. unfold rsi_step at 2.
  assert (Hu : at_index prices (Z.of_nat (length prices) - Z.of_nat (S p) - 1) = None).
  { unfold at_index.
    destruct (Z.ltb_spec (Z.of_nat (length prices) - Z.of_nat (S p) - 1) 0);
      [reflexivity | lia]. }
  rewrite Hu. cbn [to_number]. rewrite sub_nan_r.
  change (0 <=? nan)%float with false. cbv iota.
  change (0 - nan)%float with nan.
  destruct (rsi_loop_nan prices p
              (Z.of_nat (length prices) - Z.of_nat (S p) + 1) 0%float)
    as [gains ->].
  assert (Hl : (nan / number_of_nat (S p))%float = nan).
  { apply Prim2SF_inj. rewrite FloatAxioms.div_spec, Prim2SF_nan. reflexivity. }
  rewrite Hl, div_nan_r. reflexivity.
Qed.

Lemma calculateRSI_too_few_witness :
  Kernel.calculateRSI [1; 2; 3]%float 3 = nan.
Proof.
  apply calculateRSI_too_few.
  - lia.
  - simpl. lia.
Defined.

(** *** A falling window *)

(** [x - y] is [x + (-y)], also on the special values. *)
Lemma SFsub_add_opp (x y : spec_float) :
  SF64sub x y = SF64add x (SFopp y).
Proof.
  destruct x as [sx | sx | | sx mx ex], y as [sy | sy | | sy my ey];
    try reflexivity;
    try (destruct sx, sy; reflexivity);
    try (destruct sy; reflexivity).
Qed.

Lemma sub_add_opp (x y : float) : (x - y)%float = (x + - y)%float.
Proof.
  apply Prim2SF_inj.
  rewrite FloatAxioms.sub_spec, FloatAxioms.add_spec, FloatAxioms.opp_spec.
  apply SFsub_add_opp.
Qed.

(** A strictly smaller float minus a larger one is negative. *)
Lemma SFsub_lt_neg (a b : spec_float) :
  valid_binary a = true -> valid_binary b = true ->
  SFltb a b = true -> positive_float (SFopp (SF64sub a b)).
Proof.
  intros Ha Hb Hlt.
  destruct a as [sa | sa | | sa ma ea], b as [sb | sb | | sb mb eb];
    try discriminate Hlt;
    try (destruct sa; try discriminate Hlt);
    try (destruct sb; try discriminate Hlt);
    try (left; reflexivity);
    try (right; eexists; eexists; reflexivity).
  all: pose proof (SFltb_aligned _ _ _ _ _ _ Ha Hb Hlt) as HD.
  all: pose proof (valid_finite _ _ _ Ha) as [Hca _].
  all: pose proof (valid_finite _ _ _ Hb) as [Hcb _].
  all: unfold SF64sub, SFsub.
  all: rewrite (Z.min_comm ea eb).
  all: destruct (shl_align_spec mb eb (Z.min eb ea)) as [Hvb _]; [lia|].
  all: destruct (shl_align_spec ma ea (Z.min eb ea)) as [Hva _]; [lia|].
  all: rewrite Hvb, Hva.
  all: match goal with
       | |- positive_float (SFopp (binary_normalize _ _ ?D _ _)) =>
           destruct D as [| Dp | Dp] eqn:ED; try lia
       end.
  all: cbn [binary_normalize].
  all: destruct (binary_round_pos true Dp (Z.min eb ea)) as [H | (m & e & H & _)];
       [lia | left; rewrite H; reflexivity | right; exists m, e; rewrite H; reflexivity].
Qed.

Lemma falling_difference (prev cur : float) :
  (cur <? prev)%float = true ->
  positive_float (Prim2SF (- (cur - prev))%float).
Proof.
  intros Hlt. rewrite FloatAxioms.ltb_spec in Hlt.
  rewrite FloatAxioms.opp_spec, FloatAxioms.sub_spec.
  apply SFsub_lt_neg; [apply Prim2SF_valid | apply Prim2SF_valid | exact Hlt].
Qed.

Lemma leb_zero_negative (d : float) :
  positive_float (Prim2SF (- d)%float) -> (0 <=? d)%float = false.
Proof.
  intros Hd. rewrite FloatAxioms.opp_spec in Hd.
  rewrite FloatAxioms.leb_spec, Prim2SF_zero.
  destruct (Prim2SF d) as [s | s | | s m e]; destruct Hd as [Hd | (m' & e' & Hd)];
    try discriminate Hd; destruct s; try discriminate Hd; reflexivity.
Qed.

(** The loop of [calculateRSI] over a falling window: gains stay [0]
    and the losses grow by at least one unit per step. *)
Lemma rsi_loop_falling (prices : list float) (count : nat) :
  forall (i k : Z) (losses : float),
    forallb
      (fun i => (to_number (at_index prices i) <? to_number (at_index prices (i - 1)))%float)
      (loop_indices i count) = true ->
    rising_gains k losses -> k + Z.of_nat count <= 2 ^ 53 ->
    exists losses',
      for_loop i count (rsi_step prices) (0%float, losses) = (0%float, losses')
      /\ rising_gains (k + Z.of_nat count) losses'.
Proof.
  induction count as [| count IH]; intros i k losses Hw Hg Hk.
  - exists losses. split; [reflexivity |].
    replace (k + Z.of_nat 0) with k by lia. exact Hg.
  - cbn [loop_indices forallb] in Hw. apply andb_true_iff in Hw as [Hi Hw].
    cbn [for_loop]. unfold rsi_step at 2.
    pose proof (falling_difference _ _ Hi) as Hd.
    rewrite (leb_zero_negative _ Hd), sub_add_opp.
    destruct (IH (i + 1) (k + 1) _ Hw (rising_gains_add k losses _ Hg ltac:(lia) Hd))
      as (losses' & Hloop & Hinv); [lia |].
    exists losses'. split; [exact Hloop |].
    replace (k + Z.of_nat (S count)) with (k + 1 + Z.of_nat count) by lia.
    exact Hinv.
Qed.

Lemma zero_div_positive (a : float) :
  positive_float (Prim2SF a) -> (0 / a)%float = 0%float.
Proof.
  intros Ha. apply Prim2SF_inj. rewrite FloatAxioms.div_spec, Prim2SF_zero.
  destruct Ha as [-> | (m & e & ->)]; reflexivity.
Qed.

(** Over a window whose last [period + 1] samples fall strictly,
    [calculateRSI] returns exactly 0: no gain is recorded, the average
    loss is positive, RS is [0] and [100 - 100 / (1 + 0)] is [0]. *)
Theorem calculateRSI_falling (prices : list float) (period : nat) :
  (1 <= period)%nat -> Z.of_nat period < 2 ^ 53 ->
  Kernel2.falling_window prices period = true ->
  Kernel.calculateRSI prices period = 0%float.
Proof.
  intros H1 H2 Hw. unfold falling_window in Hw. unfold calculateRSI.
  destruct (rsi_loop_falling prices period _ 0 0%float Hw) as (losses & Hloop & Hinv).
  - left. split; reflexivity.
  - lia.
  - rewrite Hloop.
    destruct Hinv as [[H0 _] | [_ Hl]]; [lia |].
    rewrite Z.add_0_l in Hl.
    pose proof (average_gain_positive losses period H1 H2 Hl) as Hpos.
    rewrite (zero_div_period period H1 H2).
    rewrite (zero_div_positive _ Hpos).
    reflexivity.
Qed.

Lemma calculateRSI_falling_witness :
  Kernel.calculateRSI [9; 7; 4; 2; 1]%float 3 = 0%float.
Proof.
  apply calculateRSI_falling.
  - lia.
  - reflexivity.
  - reflexivity.
Defined.

End WindowedFacts.

(** ** Trend classification and flat series *)

Module FlatFacts.
Import Kernel Kernel2 Binary64Defs Binary64 FloatFacts.

(** [calculateTrend] reads the first and the last sample only. *)
Theorem calculateTrend_ends (a b : float) (mid : list float) :
  Kernel2.calculateTrend (a :: mid ++ [b]) = Kernel2.calculateTrend [a; b].
Proof.
  unfold calculateTrend.
  change (at_index (a :: mid ++ [b]) 0) with (Some a).
  change (at_index [a; b] 0) with (Some a).
  replace (Z.of_nat (length (a :: mid ++ [b])) - 1)
    with (Z.of_nat (length (a :: mid)))
    by (cbn [length]; rewrite length_app; cbn [length]; lia).
  change (a :: mid ++ [b]) with ((a :: mid) ++ [b]).
  rewrite (at_index_middle (a :: mid) [] b). reflexivity.
Qed.

(** The percent change of a series of one sample is a zero or [NaN]. *)
Lemma single_change (x : float) :
  Prim2SF ((x - x) / x * 100)%float = S754_nan
  \/ exists s, Prim2SF ((x - x) / x * 100)%float = S754_zero s.
Proof.
  rewrite FloatAxioms.mul_spec, FloatAxioms.div_spec, sub_diag, is_finite_spec.
  change (Prim2SF 100%float) with (S754_finite false 7036874417766400 (-46)).
  destruct (Prim2SF x) as [s | s | | s m e].
  - left. rewrite Prim2SF_zero. reflexivity.
  - left. rewrite Prim2SF_nan. reflexivity.
  - left. rewrite Prim2SF_nan. reflexivity.
  - right. rewrite Prim2SF_zero. eexists. reflexivity.
Qed.

(** A series with no sample or with one sample is "Sideways", whatever
    the sample is: the change is [NaN] or zero, and neither is above 5
    or below -5. *)
Theorem calculateTrend_short (x : float) :
  Kernel2.calculateTrend [] = "Sideways"
  /\ Kernel2.calculateTrend [x] = "Sideways".
Proof.
  split; [vm_compute; reflexivity |].
  unfold calculateTrend.
  change (to_number (at_index [x] 0)) with x.
  change (to_number (at_index [x] (Z.of_nat (length [x]) - 1))) with x.
  rewrite !FloatAxioms.ltb_spec.
  destruct (single_change x) as [-> | [s ->]]; reflexivity.
Qed.

(** *** Moving averages of a flat series *)

Lemma positive_multiplier (m : float) :
  (0 <? m)%float = true -> is_finite m = true ->
  exists mm em, Prim2SF m = S754_finite false mm em.
Proof.
  rewrite FloatAxioms.ltb_spec, is_finite_spec, Prim2SF_zero.
  destruct (Prim2SF m) as [s | s | | s mm em]; try discriminate.
  destruct s; try discriminate. intros _ _. eexists; eexists; reflexivity.
Qed.

(** One step of the recurrence on a flat series: from the sample itself,
    or from [0 + c], it gives [0 + c]. *)
Lemma ema_step_flat (m c e : float) :
  (0 <? m)%float = true -> is_finite m = true -> is_finite c = true ->
  e = c \/ e = (0 + c)%float ->
  ((c - e) * m + e)%float = (0 + c)%float.
Proof.
  intros Hm Hf Hc He.
  destruct (positive_multiplier m Hm Hf) as (mm & em & HM).
  rewrite is_finite_spec in Hc.
  assert (Pe : Prim2SF e = Prim2SF c \/ Prim2SF e = SF64add (S754_zero false) (Prim2SF c)).
  { destruct He as [-> | ->]; [left; reflexivity | right].
    rewrite FloatAxioms.add_spec, Prim2SF_zero. reflexivity. }
  apply Prim2SF_inj.
  rewrite !FloatAxioms.add_spec, FloatAxioms.mul_spec, FloatAxioms.sub_spec, HM, Prim2SF_zero.
  destruct (Prim2SF c) as [s | s | | s mc ec]; try discriminate Hc.
  - destruct Pe as [-> | ->]; destruct s; reflexivity.
  - assert (Pe' : Prim2SF e = S754_finite s mc ec) by (destruct Pe as [-> | ->]; reflexivity).
    rewrite Pe'. unfold SF64sub, SFsub. rewrite Z.sub_diag. reflexivity.
Qed.

Lemma ema_fold_flat (m c : float) (n : nat) :
  (0 <? m)%float = true -> is_finite m = true -> is_finite c = true ->
  forall e, e = c \/ e = (0 + c)%float ->
    fold_left (fun ema p => ((p - ema) * m + ema)%float) (repeat c (S n)) e
    = (0 + c)%float.
Proof.
  intros Hm Hf Hc. induction n as [| n IH]; intros e He.
  - cbn [repeat fold_left]. apply ema_step_flat; assumption.
  - change (repeat c (S (S n))) with (c :: repeat c (S n)).
    cbn [fold_left]. apply IH. right. apply ema_step_flat; assumption.
Qed.

Lemma zero_plus_finite (c : float) :
  is_finite c = true ->
  is_finite (0 + c)%float = true /\ ((0 + c)%float =? c)%float = true
  /\ (c =? c)%float = true.
Proof.
  rewrite !is_finite_spec, !FloatAxioms.eqb_spec, FloatAxioms.add_spec, Prim2SF_zero.
  destruct (Prim2SF c) as [s | s | | s mc ec]; try discriminate; intros _.
  - destruct s; repeat split; reflexivity.
  - cbn [SF64add SFadd]. unfold SFeqb. rewrite SFcompare_refl_finite.
    repeat split; reflexivity.
Qed.

(** The value [calculateEMA] reaches on [S n] copies of [c]. *)
Lemma calculateEMA_repeat (c period : float) (n : nat) :
  (0 <? 2 / (period + 1))%float = true ->
  is_finite (2 / (period + 1))%float = true -> is_finite c = true ->
  calculateEMA (repeat c (S n)) period =
    Some (match n with O => c | S _ => (0 + c)%float end).
Proof.
  intros Hm Hf Hc.
  change (repeat c (S n)) with (c :: repeat c n).
  rewrite KernelFacts.calculateEMA_cons.
  destruct n as [| n]; [reflexivity |].
  rewrite (ema_fold_flat _ c n Hm Hf Hc c); [reflexivity | left; reflexivity].
Qed.

(** On a flat series of a finite sample [c], with a period that makes
    the multiplier [2 / (period + 1)] positive and finite, [calculateEMA]
    returns a Number equal ([==]) to [c]. *)
Theorem calculateEMA_flat (c period : float) (n : nat) :
  (0 <? 2 / (period + 1))%float = true ->
  is_finite (2 / (period + 1))%float = true -> is_finite c = true ->
  exists v, Kernel.calculateEMA (repeat c (S n)) period = Some v
            /\ (v =? c)%float = true.
Proof.
  intros Hm Hf Hc. rewrite (calculateEMA_repeat c period n Hm Hf Hc).
  destruct (zero_plus_finite c Hc) as (_ & H0 & Hcc).
  destruct n; eexists; (split; [reflexivity | assumption]).
Qed.

Lemma calculateEMA_flat_witness :
  exists v, Kernel.calculateEMA (repeat 42%float 5) 12%float = Some v
            /\ (v =? 42)%float = true.
Proof.
  apply (calculateEMA_flat 42%float 12%float 4); reflexivity.
Defined.

(** On a flat series of a finite sample the MACD record is all zeros,
    and [determineTrend] gets no MACD label from it. *)
Theorem calculateMACD_flat (c : float) (n : nat) :
  is_finite c = true ->
  Kernel.calculateMACD (repeat c (S n)) =
    {| macdLine := 0%float; signalLine := Some 0%float; histogram := 0%float |}
  /\ Kernel.macd_label (Kernel.calculateMACD (repeat c (S n))) = None.
Proof.
  intros Hc.
  assert (E : calculateMACD (repeat c (S n)) =
              {| macdLine := 0%float; signalLine := Some 0%float; histogram := 0%float |}).
  { unfold calculateMACD.
    rewrite (calculateEMA_repeat c 12%float n eq_refl eq_refl Hc).
    rewrite (calculateEMA_repeat c 26%float n eq_refl eq_refl Hc).
    cbn [to_number]. rewrite sub_diag.
    destruct (zero_plus_finite c Hc) as (H0 & _ & _).
    destruct n; [rewrite Hc | rewrite H0]; reflexivity. }
  split; [exact E | rewrite E; reflexivity].
Qed.

Lemma calculateMACD_flat_witness :
  Kernel.calculateMACD (repeat 42%float 30) =
    {| macdLine := 0%float; signalLine := Some 0%float; histogram := 0%float |}
  /\ Kernel.macd_label (Kernel.calculateMACD (repeat 42%float 30)) = None.
Proof.
  apply (calculateMACD_flat 42%float 29). reflexivity.
Defined.

End FlatFacts.

(** ** Token names *)

Module TokenFacts.

Lemma lower_ascii_idempotent (c : ascii) :
  lower_ascii (lower_ascii c) = lower_ascii c.
Proof.
  destruct c as [[] [] [] [] [] [] [] []]; vm_compute; reflexivity.
Qed.

Lemma toLowerCase_idempotent (s : string) :
  toLowerCase (toLowerCase s) = toLowerCase s.
Proof.
  induction s as [| c s IH]; [reflexivity |].
  cbn [toLowerCase]. rewrite lower_ascii_idempotent, IH. reflexivity.
Qed.

(** The identifier [getTokenName] returns is in lower case, and inputs
    that differ in case only get the same identifier. *)
Theorem getTokenName_lower_case (coins : list coin) (input other : string) :
  toLowerCase (getTokenName coins input) = getTokenName coins input
  /\ (toLowerCase input = toLowerCase other ->
      getTokenName coins input = getTokenName coins other).
Proof.
  split.
  - unfold getTokenName. destruct (List.find _ coins); apply toLowerCase_idempotent.
  - intros H. unfold getTokenName. rewrite H. reflexivity.
Qed.

Lemma getTokenName_lower_case_witness :
  toLowerCase "BTC" = toLowerCase "btc"
  /\ getTokenName ContextFormatter.coins "BTC" = getTokenName ContextFormatter.coins "btc".
Proof.
  split; [reflexivity |].
  exact (proj2 (getTokenName_lower_case ContextFormatter.coins "BTC" "btc") eq_refl).
Defined.

(** When every name of the table resolves to itself, resolving an
    identifier again changes nothing. *)
Lemma getTokenName_stable (coins : list coin) :
  forallb
    (fun c => String.eqb (getTokenName coins (coin_name c)) (toLowerCase (coin_name c)))
    coins = true ->
  forall input,
    getTokenName coins (getTokenName coins input) = getTokenName coins input.
Proof.
  intros Hfix input.
  assert (Hlow : forall s, getTokenName coins (toLowerCase s) = getTokenName coins s).
  { intros s. unfold getTokenName. rewrite toLowerCase_idempotent. reflexivity. }
  unfold getTokenName at 2 3.
  destruct (List.find _ coins) as [c |] eqn:Hfind.
  - apply List.find_some in Hfind as [Hin _].
    rewrite forallb_forall in Hfix. specialize (Hfix c Hin).
    apply String.eqb_eq in Hfix. rewrite Hlow. exact Hfix.
  - unfold getTokenName. rewrite toLowerCase_idempotent, Hfind. reflexivity.
Qed.

(** With the table that [executeCode] puts in [context], resolution is
    idempotent: an identifier it returned resolves to itself, so a
    symbol and the name it stands for end in the same identifier. *)
Theorem context_getTokenName_idempotent (input : string) :
  getTokenName ContextFormatter.coins (getTokenName ContextFormatter.coins input)
  = getTokenName ContextFormatter.coins input.
Proof.
  apply getTokenName_stable. vm_compute. reflexivity.
Qed.

End TokenFacts.

(** ** Formatters: zero, absent, and the sentinel *)

Module SentinelFacts.

Lemma string_or_not_empty (s : string) : string_or s "N/A" <> EmptyString.
Proof. destruct s; discriminate. Qed.

(** The module-level formatters built as a template around the
    fallback never return the bare sentinel: whatever the response and
    whatever [toFixed] prints, the currency ones return "$" followed by
    a text that is not empty, and the percentage ones a text that is
    not empty followed by "%". *)
Theorem template_formatters_keep_unit
    (fetchMarketData : string -> option market_data) (coins : list coin)
    (toFixed2 : float -> string) (token : string) :
  (exists s, Formatter.marketCapDiluted fetchMarketData coins toFixed2 token = "$" +:+ s
             /\ s <> EmptyString)
  /\ (exists s, Formatter.liquidity fetchMarketData coins toFixed2 token = "$" +:+ s
                /\ s <> EmptyString)
  /\ (exists s, Formatter.ath fetchMarketData coins toFixed2 token = "$" +:+ s
                /\ s <> EmptyString)
  /\ (exists s, Formatter.volumeChange24h fetchMarketData coins toFixed2 token = s +:+ "%"
                /\ s <> EmptyString)
  /\ (exists s, Formatter.priceChange24h fetchMarketData coins toFixed2 token = s +:+ "%"
                /\ s <> EmptyString)
  /\ Formatter.marketCapDiluted fetchMarketData coins toFixed2 token <> "N/A"
  /\ Formatter.volumeChange24h fetchMarketData coins toFixed2 token <> "N/A".
Proof.
  assert (H : forall v, toFixed_or_NA toFixed2 v <> EmptyString).
  { intros [x |]; [apply string_or_not_empty | discriminate]. }
  do 5 (split; [eexists; split; [reflexivity | apply H] |]).
  split.
  - unfold Formatter.marketCapDiluted. intros E. discriminate E.
  - unfold Formatter.volumeChange24h. intros E.
    destruct (toFixed_or_NA _ _) as [| a [| b [| c [| d s]]]]; discriminate E.
Qed.

Lemma truthy_zero (x : float) : (x =? 0)%float = true -> truthy x = false.
Proof. intros H. unfold truthy. rewrite H. reflexivity. Qed.

(** A field that is present and equal to zero: the module-level [price],
    [volume] and [marketCap] print it with its "$", while the
    capabilities of the same names in [context] return "N/A" as for an
    absent field. *)
Theorem zero_field (coins : list coin) (toFixed2 : float -> string)
    (token : string) (x : float) (data : market_data) :
  (x =? 0)%float = true ->
  MarketData.price data = Some x ->
  Formatter.price (fun _ => Some data) coins toFixed2 token = "$" +:+ toFixed2 x
  /\ ContextFormatter.price (fun _ => Some data) toFixed2 token = "N/A"
  /\ ContextFormatter.price (fun _ => Some MarketData.no_fields) toFixed2 token = "N/A".
Proof.
  intros Hx Hd.
  unfold Formatter.price, ContextFormatter.price, Formatter.defined_currency,
    ContextFormatter.truthy_currency, field.
  rewrite Hd, (truthy_zero x Hx). repeat split; reflexivity.
Qed.

Lemma zero_field_witness :
  Formatter.price
    (fun _ => Some {| MarketData.price := Some 0%float; MarketData.volume := None;
                      MarketData.market_cap := None; MarketData.market_cap_diluted := None;
                      MarketData.liquidity := None; MarketData.liquidity_change_24h := None;
                      MarketData.off_chain_volume := None; MarketData.volume_7d := None;
                      MarketData.volume_change_24h := None; MarketData.price_change_1h := None;
                      MarketData.price_change_24h := None; MarketData.price_change_7d := None;
                      MarketData.price_change_1m := None; MarketData.price_change_1y := None;
                      MarketData.ath := None; MarketData.atl := None |})
    [] (fun _ => "0.00") "btc" = "$" +:+ "0.00"
  /\ ContextFormatter.price
       (fun _ => Some {| MarketData.price := Some 0%float; MarketData.volume := None;
                      MarketData.market_cap := None; MarketData.market_cap_diluted := None;
                      MarketData.liquidity := None; MarketData.liquidity_change_24h := None;
                      MarketData.off_chain_volume := None; MarketData.volume_7d := None;
                      MarketData.volume_change_24h := None; MarketData.price_change_1h := None;
                      MarketData.price_change_24h := None; MarketData.price_change_7d := None;
                      MarketData.price_change_1m := None; MarketData.price_change_1y := None;
                      MarketData.ath := None; MarketData.atl := None |})
       (fun _ => "0.00") "btc" = "N/A"
  /\ ContextFormatter.price (fun _ => Some MarketData.no_fields) (fun _ => "0.00") "btc" = "N/A".
Proof.
  apply (zero_field [] (fun _ => "0.00") "btc" 0%float); reflexivity.
Defined.

End SentinelFacts.

(** ** Listings and investors *)

Module ListingFacts.
Import Listings.

Lemma filter_length_le {A : Type} (p : A -> bool) (l : list A) :
  (length (List.filter p l) <= length l)%nat.
Proof.
  induction l as [| x l IH]; [reflexivity |].
  cbn [List.filter]. destruct (p x); cbn [length]; lia.
Qed.

Lemma disjoint_filters {A : Type} (p q : A -> bool) (l : list A) :
  (forall x, p x = true -> q x = false) ->
  (length (List.filter p l) + length (List.filter q l) <= length l)%nat.
Proof.
  intros Hpq. induction l as [| x l IH]; [reflexivity |].
  cbn [List.filter]. destruct (p x) eqn:Hp.
  - rewrite (Hpq x Hp). cbn [length]. lia.
  - destruct (q x); cbn [length]; lia.
Qed.

Lemma or_string_truthy (a b : option string) :
  truthy_string b = true -> truthy_string (or_string a b) = true.
Proof.
  intros Hb. unfold or_string. destruct (truthy_string a) eqn:Ha; assumption.
Qed.

(** [cexs] answers with its message exactly when the metadata carries
    no list; otherwise it lists the entries that have an identifier, in
    their order: [totalListings] counts them, never more than the
    entries received, and every listed exchange has a name that is not
    empty. *)
Theorem cexs_report (fetchMetadata : string -> option metadata)
    (coins : list coin) (token : string) :
  match cexs fetchMetadata coins token with
  | inl msg =>
      msg = "No CEX listing information available"
      /\ (fetchMetadata (getTokenName coins token) = None
          \/ exists md, fetchMetadata (getTokenName coins token) = Some md
                        /\ metadata_cexs md = None)
  | inr r =>
      exists md listed,
        fetchMetadata (getTokenName coins token) = Some md
        /\ metadata_cexs md = Some listed
        /\ totalListings r = length (exchanges r)
        /\ totalListings r = length (List.filter (fun c => truthy_string (cex_id c)) listed)
        /\ (totalListings r <= length listed)%nat
        /\ Forall (fun e => truthy_string (exchange_name e) = true) (exchanges r)
  end.
Proof.
  unfold cexs.
  destruct (fetchMetadata (getTokenName coins token)) as [[[listed |] inv] |].
  - exists {| metadata_cexs := Some listed; metadata_investors := inv |}, listed.
    cbn [totalListings exchanges metadata_cexs].
    rewrite length_map.
    repeat split; try reflexivity; [apply filter_length_le |].
    apply Forall_forall. intros e He.
    apply in_map_iff in He as (c & <- & Hc).
    apply filter_In in Hc as [_ Hid]. cbn [exchange_name].
    apply or_string_truthy. exact Hid.
  - split; [reflexivity |]. right. eexists. split; reflexivity.
  - split; [reflexivity |]. left. reflexivity.
Qed.

(** [investors] answers with its message exactly when the metadata
    carries no list; otherwise it reports every investor received, in
    their order: [totalInvestors] is their number, the lead investors,
    and the venture and angel counts together, never exceed it, and
    every country is a text that is not empty ("Unknown" when none was
    given). *)
Theorem investors_report (fetchMetadata : string -> option metadata)
    (coins : list coin) (token : string) :
  match investors fetchMetadata coins token with
  | inl msg =>
      msg = "No investor information available"
      /\ (fetchMetadata (getTokenName coins token) = None
          \/ exists md, fetchMetadata (getTokenName coins token) = Some md
                        /\ metadata_investors md = None)
  | inr r =>
      exists md listed,
        fetchMetadata (getTokenName coins token) = Some md
        /\ metadata_investors md = Some listed
        /\ totalInvestors r = length listed
        /\ length (allInvestors r) = length listed
        /\ map name (allInvestors r) = map investor_name listed
        /\ (length (leadInvestors r) <= totalInvestors r)%nat
        /\ (vcInvestors r + angelInvestors r <= totalInvestors r)%nat
        /\ Forall (fun i => truthy_string (country i) = true) (allInvestors r)
  end.
Proof.
  unfold investors.
  destruct (fetchMetadata (getTokenName coins token)) as [[cx [listed |]] |].
  - exists {| metadata_cexs := cx; metadata_investors := Some listed |}, listed.
    cbn [totalInvestors allInvestors leadInvestors vcInvestors angelInvestors
         metadata_investors].
    set (formatted := map _ listed).
    assert (Hlen : length formatted = length listed) by apply length_map.
    split; [reflexivity |]. split; [reflexivity |].
    split; [exact Hlen |]. split; [exact Hlen |].
    split; [unfold formatted; rewrite map_map; reflexivity |].
    rewrite length_map, Hlen.
    split; [rewrite <- Hlen; apply filter_length_le |].
    split.
    + rewrite <- Hlen. apply disjoint_filters.
      intros x Hx. unfold is_type in *. destruct (type x) as [t |]; [| reflexivity].
      apply String.eqb_eq in Hx. subst t. reflexivity.
    + apply Forall_forall. intros i Hi.
      apply in_map_iff in Hi as (inv & <- & _). cbn [country].
      apply or_string_truthy. reflexivity.
  - split; [reflexivity |]. right. eexists. split; reflexivity.
  - split; [reflexivity |]. left. reflexivity.
Qed.

End ListingFacts.

(** ** Normalized text *)

Module TrimFacts.

Lemma trim_start_no_leading (s : string) :
  starts_with_whitespace (trim_start s) = false.
Proof.
  induction s as [| c s IH]; [reflexivity |].
  cbn [trim_start]. destruct (is_whitespace c) eqn:Hc; [exact IH |].
  cbn [starts_with_whitespace]. exact Hc.
Qed.

Lemma trim_end_no_trailing (s : string) :
  ends_with_whitespace (trim_end s) = false.
Proof.
  induction s as [| c s IH]; [reflexivity |].
  cbn [trim_end]. destruct (trim_end s) as [| d t].
  - destruct (is_whitespace c) eqn:Hc; [reflexivity |].
    cbn [ends_with_whitespace]. exact Hc.
  - exact IH.
Qed.

Lemma trim_end_keeps_start (s : string) :
  starts_with_whitespace s = false ->
  starts_with_whitespace (trim_end s) = false.
Proof.
  destruct s as [| c s]; [reflexivity |].
  cbn [starts_with_whitespace trim_end]. intros Hc.
  destruct (trim_end s); [rewrite Hc |]; cbn [starts_with_whitespace]; exact Hc.
Qed.

Lemma trim_start_fixed (s : string) :
  starts_with_whitespace s = false -> trim_start s = s.
Proof.
  destruct s as [| c s]; [reflexivity |].
  cbn [starts_with_whitespace trim_start]. intros ->. reflexivity.
Qed.

Lemma trim_end_fixed (s : string) :
  ends_with_whitespace s = false -> trim_end s = s.
Proof.
  induction s as [| c s IH]; [reflexivity |].
  destruct s as [| d s'].
  - cbn [ends_with_whitespace trim_end]. intros ->. reflexivity.
  - intros H. change (ends_with_whitespace (String d s') = false) in H.
    specialize (IH H).
    change (trim_end (String c (String d s')))
      with (match trim_end (String d s') with
            | EmptyString => if is_whitespace c then EmptyString else String c EmptyString
            | t => String c t
            end).
    rewrite IH. reflexivity.
Qed.

Lemma trim_start_whitespace (w s : string) :
  all_whitespace w = true -> trim_start (w +:+ s) = trim_start s.
Proof.
  induction w as [| c w IH]; [reflexivity |].
  cbn [all_whitespace]. intros H. apply andb_true_iff in H as [Hc Hw].
  change (String c w +:+ s) with (String c (w +:+ s)).
  cbn [trim_start]. rewrite Hc. apply IH. exact Hw.
Qed.

(** A marker that starts with a character that is no white space is not
    found inside leading white space. *)
Lemma replace_first_whitespace (m : ascii) (marker w s : string) :
  is_whitespace m = false -> all_whitespace w = true ->
  replace_first (String m marker) (w +:+ s)
  = w +:+ replace_first (String m marker) s.
Proof.
  intros Hm. induction w as [| c w IH]; [reflexivity |].
  cbn [all_whitespace]. intros H. apply andb_true_iff in H as [Hc Hw].
  change (String c w +:+ s) with (String c (w +:+ s)).
  rewrite EngineFacts.replace_first_unfold. cbn [after_prefix].
  destruct (Ascii.eqb_spec m c) as [-> | _]; [congruence |].
  rewrite (IH Hw). reflexivity.
Qed.

(** The text [executeCode] compiles never starts or ends with white
    space, trimming it again changes nothing, and white space before
    the code does not change it. *)
Theorem cleanCode_trimmed (code w : string) :
  starts_with_whitespace (cleanCode code) = false
  /\ ends_with_whitespace (cleanCode code) = false
  /\ trim (cleanCode code) = cleanCode code
  /\ (all_whitespace w = true -> cleanCode (w +:+ code) = cleanCode code).
Proof.
  unfold cleanCode, trim.
  set (t := replace_first "```" (replace_first "```javascript" code)).
  assert (Hs : starts_with_whitespace (trim_end (trim_start t)) = false)
    by (apply trim_end_keeps_start, trim_start_no_leading).
  assert (He : ends_with_whitespace (trim_end (trim_start t)) = false)
    by apply trim_end_no_trailing.
  split; [exact Hs |]. split; [exact He |]. split.
  - rewrite (trim_start_fixed _ Hs). apply trim_end_fixed. exact He.
  - intros Hw. unfold t.
    rewrite (replace_first_whitespace "`"%char "``javascript" w code eq_refl Hw).
    rewrite (replace_first_whitespace "`"%char "``" w _ eq_refl Hw).
    rewrite (trim_start_whitespace w _ Hw). reflexivity.
Qed.

Lemma cleanCode_trimmed_witness :
  all_whitespace "  " = true
  /\ cleanCode ("  " +:+ "return 1;") = cleanCode "return 1;".
Proof.
  split; [reflexivity |].
  exact (proj2 (proj2 (proj2 (cleanCode_trimmed "return 1;" "  "))) eq_refl).
Defined.

End TrimFacts.

(** ** History requests *)

Module RequestFacts.
Import Requests.

(** With a window name that the table does not hold, [priceHistoryData]
    (and [getPriceHistory], the same body) raises nothing: it asks for a
    history whose start is [NaN]. *)
Theorem priceHistoryData_unknown_window (coins : list coin) (now : float)
    (token period : string) :
  named_window_ms period = None ->
  Requests.priceHistoryData coins now token period =
    {| asset := PString (getTokenName coins token);
       from := PNumber nan;
       to := PNumber now |}.
Proof.
  intros Hn. unfold priceHistoryData, fetchPriceHistory.
  rewrite (WindowFacts.window_start_unknown now period Hn). reflexivity.
Qed.

Lemma priceHistoryData_unknown_window_witness :
  Requests.priceHistoryData [] 1700000000000%float "BTC" "2d" =
    {| asset := PString (getTokenName [] "BTC");
       from := PNumber nan;
       to := PNumber 1700000000000%float |}.
Proof.
  apply priceHistoryData_unknown_window. reflexivity.
Defined.

(** The entry [getHistoricPortfolioData] of [context] hands its two
    arguments to a function of three: the addresses arrive as the start,
    the period as the end, and nothing as the addresses, so the call
    throws a [TypeError] before any request, whatever it is given; the
    module-level function of that name, given an array, builds the
    request with the addresses joined by commas. *)
Theorem context_getHistoricPortfolioData_throws (addresses period : param) :
  (exists e, Requests.context_getHistoricPortfolioData addresses period = inl e
             /\ error_name e = "TypeError")
  /\ forall now items window,
       Requests.getHistoricPortfolioData now (PArray items) window =
         inr {| wallets := String.concat "," items;
                since := PNumber (window_start TIME_PERIODS now window);
                until := PNumber now |}.
Proof.
  split.
  - eexists. split; reflexivity.
  - intros now items window. reflexivity.
Qed.

End RequestFacts.

(** ** Categories of a listed coin *)

Module CategoryFacts.
Import Categories.

Lemma split_commas_not_empty (s : string) : split_commas s <> [].
Proof.
  destruct s as [| c rest]; [discriminate |].
  cbn [split_commas]. destruct (Ascii.eqb c ","); [discriminate |].
  destruct (split_commas rest); discriminate.
Qed.

Lemma split_commas_joined (s : string) :
  String.concat "," (split_commas s) = s.
Proof.
  induction s as [| c rest IH]; [reflexivity |].
  cbn [split_commas].
  pose proof (split_commas_not_empty rest) as Hne.
  destruct (Ascii.eqb_spec c ",") as [-> | _].
  - destruct (split_commas rest) as [| piece pieces]; [congruence |].
    change (String.concat "," (EmptyString :: piece :: pieces))
      with (String "," (String.concat "," (piece :: pieces))).
    rewrite IH. reflexivity.
  - destruct (split_commas rest) as [| piece pieces]; [congruence |].
    destruct pieces as [| next pieces].
    + cbn [String.concat] in *. rewrite IH. reflexivity.
    + change (String.concat "," (String c piece :: next :: pieces))
        with (String c (String.concat "," (piece :: next :: pieces))).
      rewrite IH. reflexivity.
Qed.

Lemma split_commas_pieces (s : string) :
  Forall (fun piece => has_comma piece = false) (split_commas s).
Proof.
  induction s as [| c rest IH]; [repeat constructor |].
  cbn [split_commas].
  destruct (Ascii.eqb c ",") eqn:Hc.
  - constructor; [reflexivity | exact IH].
  - destruct (split_commas rest) as [| piece pieces].
    + repeat constructor. cbn [has_comma]. rewrite Hc. reflexivity.
    + inversion IH as [| ? ? Hp Hps]; subst.
      constructor; [| exact Hps].
      cbn [has_comma]. rewrite Hc, Hp. reflexivity.
Qed.

(** The categories of a listed coin are the empty list exactly when
    the field is absent or is the empty text; otherwise they are pieces
    without a comma which, joined by commas, give the field back. *)
Theorem categories_split (field : option string) :
  (categories field = [] <-> field = None \/ field = Some EmptyString)
  /\ match field with
     | None => categories field = []
     | Some text =>
         if String.eqb text EmptyString then categories field = []
         else String.concat "," (categories field) = text
              /\ Forall (fun piece => has_comma piece = false) (categories field)
     end.
Proof.
  destruct field as [[| c rest] |]; cbn [categories String.eqb].
  - split; [| reflexivity]. split; [right; reflexivity | reflexivity].
  - pose proof (split_commas_not_empty (String c rest)) as Hne.
    pose proof (split_commas_joined (String c rest)) as Hj.
    pose proof (split_commas_pieces (String c rest)) as Hp.
    split; [| split; assumption].
    split; [intros H; contradiction | intros [H | H]; discriminate H].
  - split; [| reflexivity]. split; [left; reflexivity | reflexivity].
Qed.

End CategoryFacts.
